(** * Telemetry decoder of the SAC 2020 flight code

    A shallow embedding of [sac2020_lib/telem_decode.cpp]: the state-label
    lookup [state_name], the row formatting done by [sprintf] into the
    static buffer [record], and the read/format/write loop of [main].

    Integers of the program are modelled as [Z] with their wrap-around
    written out, the bytes of the dump file as [list byte], text as
    [string], a [float] as its 32 bits, which [%.4f] renders by exact
    integer arithmetic.  The header [sac2020_state.h] is not among the
    sources: the numeric codes of [VehicleState_t], the size of
    [MainStateVector_t] and its byte layout are section variables, so the
    results hold for every choice of them; the fields of the struct follow
    the specification. *)

From Stdlib Require Import ZArith NArith List String Ascii Bool Lia.
From coqutil Require Import Byte Word.LittleEndianList.
Import ListNotations.

Local Open Scope string_scope.
Local Open Scope Z_scope.

(** * Part I: the program *)

(** ** Characters and strings *)

Definition is_digit (c : ascii) : bool :=
  let n := nat_of_ascii c in ((48 <=? n) && (n <=? 57))%nat.

Definition is_upper (c : ascii) : bool :=
  let n := nat_of_ascii c in ((65 <=? n) && (n <=? 90))%nat.

Definition is_lower (c : ascii) : bool :=
  let n := nat_of_ascii c in ((97 <=? n) && (n <=? 122))%nat.

Fixpoint all_chars (p : ascii -> bool) (s : string) : bool :=
  match s with
  | EmptyString => true
  | String c s' => p c && all_chars p s'
  end.

Fixpoint count_char (c : ascii) (s : string) : nat :=
  match s with
  | EmptyString => O
  | String d s' => ((if Ascii.eqb d c then 1 else 0) + count_char c s')%nat
  end.

(** Splitting a text at each occurrence of a separator. *)
Fixpoint split_on (c : ascii) (s : string) : list string :=
  match s with
  | EmptyString => [""]
  | String d s' =>
      if Ascii.eqb d c then "" :: split_on c s'
      else match split_on c s' with
           | f :: fs => String d f :: fs
           | [] => [String d ""]
           end
  end.

(** The line feed written [\n] in the C++ source. *)
Definition LF : ascii := "010"%char.
Definition nl : string := String LF "".

(** ** Machine integers *)

(** Conversion to [uint8_t], [uint32_t] and [int] (32 bits, two's
    complement), as done at a call, an increment or a variadic read. *)
Definition to_uint8 (z : Z) : Z := z mod 2 ^ 8.
Definition to_uint32 (z : Z) : Z := z mod 2 ^ 32.
Definition to_int32 (z : Z) : Z := (z + 2 ^ 31) mod 2 ^ 32 - 2 ^ 31.

(** ** Flight states *)

(** The enumerators named by the [case] labels of [state_name]. *)
Inductive VehicleState_t : Set :=
| PRELTOFF | PWFLIGHT | CRUISING | CRSCANRD | FALLDROG | FALLMAIN | CONCLUDE.

(** The label the specification attaches to each flight state, its
    canonical uppercase short name, and the sentinel it gives to a code
    outside the enumeration. *)
Definition canonical_label (v : VehicleState_t) : string :=
  match v with
  | PRELTOFF => "PRELTOFF"
  | PWFLIGHT => "PWFLIGHT"
  | CRUISING => "CRUISING"
  | CRSCANRD => "CRSCANRD"
  | FALLDROG => "FALLDROG"
  | FALLMAIN => "FALLMAIN"
  | CONCLUDE => "CONCLUDE"
  end.

Definition unknown_label : string := "UNKNOWN".

(** ** Decimal output of [printf] *)

Definition digit_char (d : Z) : ascii := ascii_of_nat (48 + Z.to_nat d).
Definition digit_value (c : ascii) : Z := Z.of_nat (nat_of_ascii c) - 48.

(** The decimal digits of a natural number, most significant first, without
    leading zero; [fuel] bounds the number of digits. *)
Fixpoint fmt_u_aux (fuel : nat) (n : Z) : string :=
  match fuel with
  | O => ""
  | S f =>
      (if n <? 10 then "" else fmt_u_aux f (n / 10))
      ++ String (digit_char (n mod 10)) ""
  end.

Definition fmt_u (n : Z) : string := fmt_u_aux (S (Z.to_nat (Z.log2 n))) n.

(** [%d]: an [int] in decimal, with a minus sign when negative. *)
Definition fmt_d (z : Z) : string :=
  if z <? 0 then String "-" (fmt_u (- z)) else fmt_u z.

(** Reading a digit string back, to state what a printed number denotes. *)
Fixpoint digits_value (acc : Z) (s : string) : Z :=
  match s with
  | EmptyString => acc
  | String c s' => digits_value (10 * acc + digit_value c) s'
  end.

Definition read_d (s : string) : Z :=
  match s with
  | String c s' =>
      if Ascii.eqb c "-" then - digits_value 0 s' else digits_value 0 s
  | EmptyString => 0
  end.

(** ** IEEE-754 single precision *)

(** What a [float] denotes: a signed dyadic number [m * 2^e], an infinity
    or a NaN; the sign bit is kept, [printf] shows it. *)
Inductive fp_value : Set :=
| FFinite (neg : bool) (m e : Z)
| FInf (neg : bool)
| FNaN (neg : bool).

(** The value of the 32 bits of a [float]: sign in bit 31, biased exponent
    in bits 30..23, fraction in bits 22..0. *)
Definition float_of_bits (b : Z) : fp_value :=
  let sign := Z.testbit b 31 in
  let ex := Z.land (Z.shiftr b 23) 255 in
  let frac := Z.land b (2 ^ 23 - 1) in
  if ex =? 255 then (if frac =? 0 then FInf sign else FNaN sign)
  else if ex =? 0 then FFinite sign frac (-149)
  else FFinite sign (frac + 2 ^ 23) (ex - 150).

Definition is_finite (x : fp_value) : bool :=
  match x with FFinite _ _ _ => true | _ => false end.

(** Nearest integer to [num / den] for [den > 0], ties to even (the default
    rounding direction, which [printf] follows). *)
Definition round_half_even (num den : Z) : Z :=
  let q := num / den in
  let r := num mod den in
  if 2 * r <? den then q
  else if den <? 2 * r then q + 1
  else if Z.even q then q else q + 1.

(** [m * 2^e * 10^4] rounded to an integer. *)
Definition scaled4 (m e : Z) : Z :=
  if 0 <=? e then m * 2 ^ e * 10000
  else round_half_even (m * 10000) (2 ^ (- e)).

Definition sign_text (neg : bool) : string := if neg then "-" else "".

(** Four fraction digits, zero padded. *)
Definition frac4 (n : Z) : string :=
  String (digit_char (n / 1000 mod 10))
    (String (digit_char (n / 100 mod 10))
       (String (digit_char (n / 10 mod 10))
          (String (digit_char (n mod 10)) ""))).

(** [%.4f] applied to a [float] argument (promoted to [double] without
    change of value): fixed notation with four fraction digits for a finite
    value, [inf] or [nan] otherwise. *)
Definition fmt_f4 (x : fp_value) : string :=
  match x with
  | FFinite neg m e =>
      let q := scaled4 m e in
      sign_text neg ++ fmt_u (q / 10000) ++ String "." (frac4 (q mod 10000))
  | FInf neg => sign_text neg ++ "inf"
  | FNaN neg => sign_text neg ++ "nan"
  end.

(** ** [sprintf] *)

(** A variadic argument after the default promotions: a [double] (here
    always the value of a [float]), a C string or an [int]. *)
Inductive printf_arg : Set :=
| arg_double (x : fp_value)
| arg_str (s : string)
| arg_int (z : Z).

(** The text a format produces, for the three conversions the program uses
    ([%.4f], [%s], [%d]); [None] stands for undefined behaviour (another
    conversion, or an argument missing or of the wrong kind). *)
Fixpoint format_text (fmt : string) (args : list printf_arg) : option string :=
  match fmt with
  | EmptyString => Some ""
  | String c r =>
      if Ascii.eqb c "%" then
        match r with
        | EmptyString => None
        | String c1 r1 =>
            if Ascii.eqb c1 "s" then
              match args with
              | arg_str s :: args' =>
                  option_map (append s) (format_text r1 args')
              | _ => None
              end
            else if Ascii.eqb c1 "d" then
              match args with
              | arg_int z :: args' =>
                  option_map (append (fmt_d z)) (format_text r1 args')
              | _ => None
              end
            else if Ascii.eqb c1 "." then
              match r1 with
              | String c2 (String c3 r3) =>
                  if Ascii.eqb c2 "4" && Ascii.eqb c3 "f" then
                    match args with
                    | arg_double x :: args' =>
                        option_map (append (fmt_f4 x)) (format_text r3 args')
                    | _ => None
                    end
                  else None
              | _ => None
              end
            else None
        end
      else option_map (String c) (format_text r args)
  end.

(** [sprintf] into a buffer of [size] characters: the text and its
    terminating NUL must fit, writing past the buffer is undefined. *)
Definition sprintf (size : nat) (fmt : string) (args : list printf_arg)
  : option string :=
  match format_text fmt args with
  | Some s => if (String.length s <? size)%nat then Some s else None
  | None => None
  end.

(** ** Telemetry records *)

(** Modelled from the spec: the struct [MainStateVector_t], which
    [sac2020_state.h] declares and is not among the sources.  It has the 21
    fields [main] reads, in the order of the specification; a
    floating-point field is a [float] and holds its 32 bits, [state] and
    [imu_temp] hold an integer. *)
Record MainStateVector_t : Set := {
  time : Z;
  state : Z;
  altitude : Z;
  velocity : Z;
  acceleration : Z;
  pressure : Z;
  temperature : Z;
  baro_altitude : Z;
  imu_temp : Z;
  accel_x : Z;
  accel_y : Z;
  accel_z : Z;
  accel_vertical : Z;
  gyro_x : Z;
  gyro_y : Z;
  gyro_z : Z;
  quat_w : Z;
  quat_x : Z;
  quat_y : Z;
  quat_z : Z;
  launchpad_altitude : Z
}.

(** [static char record[1024]]. *)
Definition record_size : nat := 1024.

Definition row_format : string :=
  "%.4f,%s,%.4f,%.4f,%.4f,%.4f,%.4f,%.4f,%d,%.4f,%.4f,"
  ++ "%.4f,%.4f,%.4f,%.4f,%.4f,%.4f,%.4f,%.4f,%.4f,%.4f" ++ nl.

Definition header : string :=
  "Time,State,Filtered Altitude,Filtered Velocity,Filtered Acceleration,"
  ++ "Pressure,Temperature,Barometer Altitude,IMU Temperature,"
  ++ "Accel X,Accel Y,Accel Z,Accel Vertical,Gyro X,Gyro Y,Gyro Z,"
  ++ "Quat W,Quat X,Quat Y,Quat Z,LP Altitude" ++ nl.

Definition count_format : string := "Decoded %d telemetry packets" ++ nl.

(** ** Streams *)

(** [fread(ptr, size, 1, stream)] on the bytes left in the stream: the
    item read, if a whole one was there, and the bytes left afterwards.  A
    short read consumes what was left and yields no item; a zero [size]
    reads nothing. *)
Definition fread (size : nat) (stream : list byte)
  : option (list byte) * list byte :=
  if (size =? 0)%nat then (None, stream)
  else if (List.length stream <? size)%nat then (None, [])
  else (Some (firstn size stream), skipn size stream).

(** What the run finds on disk: the bytes of the dump [av[1]] ([None] when
    it cannot be opened for reading), what [av[1].csv] holds beforehand, and
    whether it can be opened for writing. *)
Record filesystem : Type := {
  fin_file : option (list byte);
  fout_file : string;
  fout_writable : bool
}.

(** How a run ends.  [Returned]: [main] returns, after [fclose]; [csv] and
    [console] are the texts of the CSV file and of the console.
    [Undefined]: the program runs into undefined behaviour.  When this is
    a call on a null stream, which ends the process, [csv] and [console]
    are the texts the CSV file and the console are left with: what is
    still in a stdio buffer is lost. *)
Inductive outcome : Type :=
| Returned (status : Z) (csv console : string)
| Undefined (csv console : string).

(** The states of the read loop.  [Fault] is undefined behaviour inside
    the loop body (the [sprintf] call). *)
Inductive decoder : Type :=
| Reading (p_fin : list byte) (packet_count : Z) (p_fout : string)
| Done (packet_count : Z) (p_fout : string)
| Fault (p_fout : string).

Section Program.

(** The numeric value of each enumerator, as [sac2020_state.h] fixes it. *)
Variable code : VehicleState_t -> Z.

(** [sizeof(vec)], and the object that [sizeof(vec)] bytes stored at
    [&vec] make up. *)
Variable sizeof_vec : nat.
Variable load_vec : list byte -> MainStateVector_t.

(** [char* state_name(uint8_t state)]: the [switch] compares the promoted
    argument with each case constant and falls to [default] otherwise. *)
Definition state_name (state : Z) : string :=
  if state =? code PRELTOFF then "PRELTOFF"
  else if state =? code PWFLIGHT then "PWFLIGHT"
  else if state =? code CRUISING then "CRUISING"
  else if state =? code CRSCANRD then "CRSCANRD"
  else if state =? code FALLDROG then "FALLDROG"
  else if state =? code FALLMAIN then "FALLMAIN"
  else if state =? code CONCLUDE then "CONCLUDE"
  else "UNKNOWN".

(** The [sprintf] call of [main]: the row of one record, or [None] when
    the call is undefined. *)
Definition FormatRow (vec : MainStateVector_t) : option string :=
  sprintf record_size row_format
    [ arg_double (float_of_bits (time vec));
      arg_str (state_name (to_uint8 (state vec)));
      arg_double (float_of_bits (altitude vec));
      arg_double (float_of_bits (velocity vec));
      arg_double (float_of_bits (acceleration vec));
      arg_double (float_of_bits (pressure vec));
      arg_double (float_of_bits (temperature vec));
      arg_double (float_of_bits (baro_altitude vec));
      arg_int (to_int32 (imu_temp vec));
      arg_double (float_of_bits (accel_x vec));
      arg_double (float_of_bits (accel_y vec));
      arg_double (float_of_bits (accel_z vec));
      arg_double (float_of_bits (accel_vertical vec));
      arg_double (float_of_bits (gyro_x vec));
      arg_double (float_of_bits (gyro_y vec));
      arg_double (float_of_bits (gyro_z vec));
      arg_double (float_of_bits (quat_w vec));
      arg_double (float_of_bits (quat_x vec));
      arg_double (float_of_bits (quat_y vec));
      arg_double (float_of_bits (quat_z vec));
      arg_double (float_of_bits (launchpad_altitude vec)) ].

(** One evaluation of the loop condition, followed by the body when the
    condition holds. *)
Definition step (d : decoder) : decoder :=
  match d with
  | Reading p_fin packet_count p_fout =>
      match fread sizeof_vec p_fin with
      | (Some bytes, p_fin') =>
          let vec := load_vec bytes in
          let packet_count' := to_uint32 (packet_count + 1) in
          match FormatRow vec with
          | Some record => Reading p_fin' packet_count' (p_fout ++ record)
          | None => Fault p_fout
          end
      | (None, _) => Done packet_count p_fout
      end
  | Done _ _ => d
  | Fault _ => d
  end.

(** The [while] loop; [None] when [fuel] iterations do not end it. *)
Fixpoint run (fuel : nat) (d : decoder) : option decoder :=
  match d with
  | Reading _ _ _ =>
      match fuel with
      | O => None
      | S fuel' => run fuel' (step d)
      end
  | _ => Some d
  end.

(** [main]: neither [fopen] result is tested, so a null [p_fout] reaches
    [fputs] and a null [p_fin] reaches [fread]; both calls are undefined
    and end the process.  Mode ["w"] empties the CSV file, and [fputs]
    leaves the header in the buffer of the stream (its 225 characters are
    fewer than the least [BUFSIZ], 256): only [fclose] brings the text to
    the file, so a process ended at the first [fread] leaves the file
    empty.  A write past [record] leaves nothing determined; the outcome
    then carries the text given to the stream before the call.
    [packet_count] is printed, after [fclose], with [%d], which reads its
    32 bits as an [int]. *)
Definition main (fuel : nat) (fs : filesystem) : option outcome :=
  let p_fin := fin_file fs in
  if fout_writable fs then
    let file := "" in
    let p_fout := file ++ header in
    match p_fin with
    | None => Some (Undefined file "")
    | Some bytes =>
        match run fuel (Reading bytes 0 p_fout) with
        | Some (Done packet_count p_fout') =>
            match format_text count_format [arg_int (to_int32 packet_count)] with
            | Some line => Some (Returned 0 p_fout' line)
            | None => Some (Undefined p_fout' "")
            end
        | Some (Fault p_fout') => Some (Undefined p_fout' "")
        | _ => None
        end
    end
  else Some (Undefined (fout_file fs) "").

End Program.

(** * Part II: notions of the specification *)

(** The numbering a C++ enumeration without initialisers receives; it
    serves to instantiate the results at concrete codes. *)
Definition default_code (v : VehicleState_t) : Z :=
  match v with
  | PRELTOFF => 0
  | PWFLIGHT => 1
  | CRUISING => 2
  | CRSCANRD => 3
  | FALLDROG => 4
  | FALLMAIN => 5
  | CONCLUDE => 6
  end.

(** The characters a rendered field is made of: letters, digits, the minus
    sign and the decimal point. *)
Definition field_char (c : ascii) : bool :=
  is_digit c || is_upper c || is_lower c || Ascii.eqb c "-" || Ascii.eqb c ".".

(** Fixed notation with four fraction digits: an optional minus sign, at
    least one digit, a point, exactly four digits. *)
Definition unsigned_fixed4 (s : string) : bool :=
  match split_on "." s with
  | [ip; fp] =>
      negb (String.eqb ip "") && all_chars is_digit ip
      && (String.length fp =? 4)%nat && all_chars is_digit fp
  | _ => false
  end.

Definition is_fixed4 (s : string) : bool :=
  match s with
  | String c s' => if Ascii.eqb c "-" then unsigned_fixed4 s' else unsigned_fixed4 s
  | EmptyString => false
  end.

(** A plain decimal integer: an optional minus sign and at least one digit. *)
Definition unsigned_decimal (s : string) : bool :=
  negb (String.eqb s "") && all_chars is_digit s.

Definition is_decimal (s : string) : bool :=
  match s with
  | String c s' => if Ascii.eqb c "-" then unsigned_decimal s' else unsigned_decimal s
  | EmptyString => false
  end.

(** The text of an infinity or of a NaN. *)
Definition is_nonfinite_text (s : string) : bool :=
  String.eqb s "inf" || String.eqb s "-inf"
  || String.eqb s "nan" || String.eqb s "-nan".

(** What [%.4f] shows of the 32 bits of a [float]: a finite value in fixed
    notation with four fraction digits, an infinity or a NaN by its name. *)
Definition float_text_ok (b : Z) : Prop :=
  if is_finite (float_of_bits b)
  then is_fixed4 (fmt_f4 (float_of_bits b)) = true
  else is_nonfinite_text (fmt_f4 (float_of_bits b)) = true.

(** The floating-point fields of a record, in the order of the row. *)
Definition float_fields (vec : MainStateVector_t) : list Z :=
  [ time vec; altitude vec; velocity vec; acceleration vec; pressure vec;
    temperature vec; baro_altitude vec; accel_x vec; accel_y vec;
    accel_z vec; accel_vertical vec; gyro_x vec; gyro_y vec; gyro_z vec;
    quat_w vec; quat_x vec; quat_y vec; quat_z vec;
    launchpad_altitude vec ].

(** The 21 fields of the row of a record, in the order the specification
    lists them, and the row they make up. *)
Definition row_fields (code : VehicleState_t -> Z) (vec : MainStateVector_t)
  : list string :=
  [ fmt_f4 (float_of_bits (time vec));
    state_name code (to_uint8 (state vec));
    fmt_f4 (float_of_bits (altitude vec));
    fmt_f4 (float_of_bits (velocity vec));
    fmt_f4 (float_of_bits (acceleration vec));
    fmt_f4 (float_of_bits (pressure vec));
    fmt_f4 (float_of_bits (temperature vec));
    fmt_f4 (float_of_bits (baro_altitude vec));
    fmt_d (to_int32 (imu_temp vec));
    fmt_f4 (float_of_bits (accel_x vec));
    fmt_f4 (float_of_bits (accel_y vec));
    fmt_f4 (float_of_bits (accel_z vec));
    fmt_f4 (float_of_bits (accel_vertical vec));
    fmt_f4 (float_of_bits (gyro_x vec));
    fmt_f4 (float_of_bits (gyro_y vec));
    fmt_f4 (float_of_bits (gyro_z vec));
    fmt_f4 (float_of_bits (quat_w vec));
    fmt_f4 (float_of_bits (quat_x vec));
    fmt_f4 (float_of_bits (quat_y vec));
    fmt_f4 (float_of_bits (quat_z vec));
    fmt_f4 (float_of_bits (launchpad_altitude vec)) ].

Definition row_text (code : VehicleState_t -> Z) (vec : MainStateVector_t)
  : string :=
  String.concat "," (row_fields code vec) ++ nl.

(** The columns of a row that hold floating-point fields: all but the
    second (the state label) and the ninth (the integer temperature). *)
Definition float_columns (fs : list string) : list string :=
  match fs with
  | f0 :: _ :: f2 :: f3 :: f4 :: f5 :: f6 :: f7 :: _ :: rest =>
      f0 :: f2 :: f3 :: f4 :: f5 :: f6 :: f7 :: rest
  | _ => fs
  end.

(** The fields of a row, read back from its text: the text before the
    final line feed, split at the commas. *)
Fixpoint chop_last (s : string) : string :=
  match s with
  | EmptyString => ""
  | String c EmptyString => ""
  | String c s' => String c (chop_last s')
  end.

Definition fields_of_row (row : string) : list string :=
  split_on "," (chop_last row).

(** The complete records of a dump, in file order: the first [n] chunks of
    [size] bytes, [n] being the number of whole chunks. *)
Fixpoint chunks (size n : nat) (bytes : list byte) : list (list byte) :=
  match n with
  | O => []
  | S n' => firstn size bytes :: chunks size n' (skipn size bytes)
  end.

Definition record_count (size : nat) (bytes : list byte) : nat :=
  (List.length bytes / size)%nat.

Definition complete_records (size : nat) (bytes : list byte)
  : list (list byte) :=
  chunks size (record_count size bytes) bytes.

Fixpoint concat_rows (rows : list string) : string :=
  match rows with
  | [] => ""
  | r :: rows' => r ++ concat_rows rows'
  end.

(** The rows of the complete records of a dump. *)
Definition decoded_rows (code : VehicleState_t -> Z) (size : nat)
  (load : list byte -> MainStateVector_t) (bytes : list byte) : list string :=
  map (fun r => row_text code (load r)) (complete_records size bytes).

(** The value of [packet_count] after [n] increments. *)
Fixpoint count_after (c : Z) (n : nat) : Z :=
  match n with
  | O => c
  | S n' => count_after (to_uint32 (c + 1)) n'
  end.

(** The text of the line the run prints for a count. *)
Definition count_line (shown : Z) : string :=
  "Decoded " ++ fmt_d shown ++ " telemetry packets" ++ nl.

(** The run returns and reports the count [n]. *)
Definition reports_count (o : outcome) (n : Z) : Prop :=
  exists status csv, o = Returned status csv (count_line n).

(** The state of the file system once a run is over. *)
Definition csv_of (o : outcome) : string :=
  match o with
  | Returned _ csv _ => csv
  | Undefined csv _ => csv
  end.

Definition after_run (fs : filesystem) (o : outcome) : filesystem :=
  {| fin_file := fin_file fs;
     fout_file := csv_of o;
     fout_writable := fout_writable fs |}.

(** The same file system with another dump. *)
Definition with_input (fs : filesystem) (bytes : list byte) : filesystem :=
  {| fin_file := Some bytes;
     fout_file := fout_file fs;
     fout_writable := fout_writable fs |}.


(** ** The record schema *)

(** Modelled from the spec: the byte layout of [MainStateVector_t], which
    [sac2020_state.h] declares and is not among the sources.  The fields
    are stored in declaration order, tightly packed, least significant
    byte first: a floating-point field as the 4 bytes of a [float], the
    state code as one byte (the [uint8_t] that [state_name] takes), the
    integer temperature as the 4 bytes of an [int] (what [%d] reads). *)
Definition packed_sizeof : nat := 81.

(** Modelled from the spec: the encoding of a record to bytes per the
    schema, done by the producer of the dump, which is not among the
    sources; it writes the fields in the packed layout above. *)
Definition store_packed (vec : MainStateVector_t) : list byte :=
  (le_split 4 (time vec) ++ le_split 1 (state vec)
   ++ le_split 4 (altitude vec) ++ le_split 4 (velocity vec)
   ++ le_split 4 (acceleration vec) ++ le_split 4 (pressure vec)
   ++ le_split 4 (temperature vec) ++ le_split 4 (baro_altitude vec)
   ++ le_split 4 (imu_temp vec)
   ++ le_split 4 (accel_x vec) ++ le_split 4 (accel_y vec)
   ++ le_split 4 (accel_z vec) ++ le_split 4 (accel_vertical vec)
   ++ le_split 4 (gyro_x vec) ++ le_split 4 (gyro_y vec)
   ++ le_split 4 (gyro_z vec)
   ++ le_split 4 (quat_w vec) ++ le_split 4 (quat_x vec)
   ++ le_split 4 (quat_y vec) ++ le_split 4 (quat_z vec)
   ++ le_split 4 (launchpad_altitude vec))%list.

(** Reading the next [n] bytes as an unsigned number and going on with the
    bytes after them. *)
Definition get_le {A : Type} (n : nat) (k : Z -> list byte -> A)
  (bytes : list byte) : A :=
  k (le_combine (firstn n bytes)) (skipn n bytes).

(** Modelled from the spec: the object that [fread] leaves in [vec] for the
    packed layout above, the type of [vec] being declared in the missing
    header.  The temperature is read as a signed [int]. *)
Definition load_packed : list byte -> MainStateVector_t :=
  get_le 4 (fun time =>
  get_le 1 (fun state =>
  get_le 4 (fun altitude =>
  get_le 4 (fun velocity =>
  get_le 4 (fun acceleration =>
  get_le 4 (fun pressure =>
  get_le 4 (fun temperature =>
  get_le 4 (fun baro_altitude =>
  get_le 4 (fun imu_temp =>
  get_le 4 (fun accel_x =>
  get_le 4 (fun accel_y =>
  get_le 4 (fun accel_z =>
  get_le 4 (fun accel_vertical =>
  get_le 4 (fun gyro_x =>
  get_le 4 (fun gyro_y =>
  get_le 4 (fun gyro_z =>
  get_le 4 (fun quat_w =>
  get_le 4 (fun quat_x =>
  get_le 4 (fun quat_y =>
  get_le 4 (fun quat_z =>
  get_le 4 (fun launchpad_altitude _ =>
    Build_MainStateVector_t time state altitude velocity acceleration
      pressure temperature baro_altitude (to_int32 imu_temp)
      accel_x accel_y accel_z accel_vertical gyro_x gyro_y gyro_z
      quat_w quat_x quat_y quat_z launchpad_altitude))))))))))))))))))))).

(** The values the fields of a record can hold. *)
Definition is_float_bits (b : Z) : Prop := 0 <= b < 2 ^ 32.

Definition wf_vec (vec : MainStateVector_t) : Prop :=
  Forall is_float_bits (float_fields vec)
  /\ 0 <= state vec < 2 ^ 8
  /\ - 2 ^ 31 <= imu_temp vec < 2 ^ 31.

(** ** Sample inputs *)

Definition sample_vec : MainStateVector_t :=
  {| time := 0x3F800000; state := 1; altitude := 0x44FA0000;
     velocity := 0x42C80000; acceleration := 0xC11CCCCD;
     pressure := 0x47C5E680; temperature := 0x41A00000;
     baro_altitude := 0x44F9C000; imu_temp := -5;
     accel_x := 0; accel_y := 0x80000000; accel_z := 0x411CCCCD;
     accel_vertical := 0x3DC00000; gyro_x := 0x3D000000;
     gyro_y := 0; gyro_z := 0;
     quat_w := 0x3F800000; quat_x := 0; quat_y := 0; quat_z := 0;
     launchpad_altitude := 0x7F7FFFFF |}.

(** A record whose time is a quiet NaN and whose altitude is minus
    infinity. *)
Definition nan_vec : MainStateVector_t :=
  {| time := 0x7FC00000; state := 200; altitude := 0xFF800000;
     velocity := 0; acceleration := 0; pressure := 0; temperature := 0;
     baro_altitude := 0; imu_temp := 21;
     accel_x := 0; accel_y := 0; accel_z := 0; accel_vertical := 0;
     gyro_x := 0; gyro_y := 0; gyro_z := 0;
     quat_w := 0; quat_x := 0; quat_y := 0; quat_z := 0;
     launchpad_altitude := 0 |}.

(** A dump of two records and one stray byte. *)
Definition sample_dump : list byte :=
  (store_packed sample_vec ++ store_packed nan_vec ++ [Byte.x01])%list.

Definition sample_fs : filesystem :=
  {| fin_file := Some sample_dump;
     fout_file := "stale text";
     fout_writable := true |}.

(** A dump that cannot be opened. *)
Definition missing_fs : filesystem :=
  {| fin_file := None; fout_file := ""; fout_writable := true |}.


(** A dump of [2^31] records of zero bytes, and the same with a stray byte
    at the end. *)
Definition big_dump : list byte :=
  repeat Byte.x00 (Z.to_nat (2 ^ 31) * packed_sizeof).

Definition big_fs : filesystem :=
  {| fin_file := Some big_dump; fout_file := ""; fout_writable := true |}.

Definition big_fragment_fs : filesystem :=
  {| fin_file := Some (big_dump ++ [Byte.x01])%list;
     fout_file := "";
     fout_writable := true |}.

(** ** Reading the output back *)

(** The number a text in fixed notation denotes, in units of [10^-4]: the
    digits before the point times [10^4] plus the four digits after it,
    negated after a minus sign. *)
Definition unsigned_scaled (s : string) : Z :=
  match split_on "." s with
  | [ip; fp] => digits_value 0 ip * 10000 + digits_value 0 fp
  | _ => 0
  end.

Definition read_fixed4 (s : string) : Z :=
  match s with
  | String c s' =>
      if Ascii.eqb c "-" then - unsigned_scaled s' else unsigned_scaled s
  | EmptyString => 0
  end.


(** The lines of a text file: what stands before each line feed. *)
Definition lines_of (text : string) : list string :=
  removelast (split_on LF text).

(** A record whose row has the greatest length: every [float] is the most
    negative finite one, the label has eight letters, the temperature is
    the least [int]. *)
Definition longest_vec : MainStateVector_t :=
  {| time := 0xFF7FFFFF; state := 0; altitude := 0xFF7FFFFF;
     velocity := 0xFF7FFFFF; acceleration := 0xFF7FFFFF;
     pressure := 0xFF7FFFFF; temperature := 0xFF7FFFFF;
     baro_altitude := 0xFF7FFFFF; imu_temp := - 2 ^ 31;
     accel_x := 0xFF7FFFFF; accel_y := 0xFF7FFFFF; accel_z := 0xFF7FFFFF;
     accel_vertical := 0xFF7FFFFF; gyro_x := 0xFF7FFFFF;
     gyro_y := 0xFF7FFFFF; gyro_z := 0xFF7FFFFF;
     quat_w := 0xFF7FFFFF; quat_x := 0xFF7FFFFF; quat_y := 0xFF7FFFFF;
     quat_z := 0xFF7FFFFF; launchpad_altitude := 0xFF7FFFFF |}.

(** * Part III: proofs *)

(** The numeric functions are left folded by simplification. *)
#[local] Arguments digit_char : simpl never.
#[local] Arguments digit_value : simpl never.
#[local] Arguments is_digit : simpl never.
#[local] Arguments is_upper : simpl never.
#[local] Arguments is_lower : simpl never.
#[local] Arguments fmt_u : simpl never.
#[local] Arguments fmt_d : simpl never.
#[local] Arguments fmt_f4 : simpl never.
#[local] Arguments float_of_bits : simpl never.
#[local] Arguments to_int32 : simpl never.
#[local] Arguments to_uint32 : simpl never.
#[local] Arguments to_uint8 : simpl never.

(** ** Strings *)

Lemma length_append (s t : string) :
  String.length (s ++ t) = (String.length s + String.length t)%nat.
Proof. induction s as [|c s IH]; simpl; [reflexivity | now rewrite IH]. Qed.

Lemma app_assoc_str (s t u : string) : (s ++ t) ++ u = s ++ (t ++ u).
Proof. induction s as [|c s IH]; simpl; [reflexivity | now rewrite IH]. Qed.

Lemma app_empty_r (s : string) : s ++ "" = s.
Proof. induction s as [|c s IH]; simpl; [reflexivity | now rewrite IH]. Qed.

Lemma all_chars_app p (s t : string) :
  all_chars p (s ++ t) = all_chars p s && all_chars p t.
Proof.
  induction s as [|c s IH]; simpl; [reflexivity|].
  now rewrite IH, andb_assoc.
Qed.

Lemma count_char_app c (s t : string) :
  count_char c (s ++ t) = (count_char c s + count_char c t)%nat.
Proof.
  induction s as [|d s IH]; simpl; [reflexivity|]. rewrite IH. lia.
Qed.

Lemma all_chars_weaken (p q : ascii -> bool) s :
  (forall c, p c = true -> q c = true) ->
  all_chars p s = true -> all_chars q s = true.
Proof.
  intros Hpq. induction s as [|c s IH]; simpl; [reflexivity|].
  intros H. apply andb_true_iff in H as [Hc Hs].
  now rewrite (Hpq _ Hc), IH.
Qed.

Lemma all_chars_count p c s :
  p c = false -> all_chars p s = true -> count_char c s = O.
Proof.
  intros Hc. induction s as [|d s IH]; simpl; [reflexivity|].
  intros H. apply andb_true_iff in H as [Hd Hs].
  destruct (Ascii.eqb_spec d c) as [->|_]; [congruence|].
  now rewrite IH.
Qed.

Lemma split_on_absent c s : count_char c s = O -> split_on c s = [s].
Proof.
  induction s as [|d s IH]; simpl; [reflexivity|].
  destruct (Ascii.eqb d c); [discriminate|].
  intros H. now rewrite IH.
Qed.

Lemma split_on_app c s t :
  count_char c s = O ->
  split_on c (s ++ String c t) = s :: split_on c t.
Proof.
  induction s as [|d s IH]; simpl.
  - now rewrite Ascii.eqb_refl.
  - destruct (Ascii.eqb d c); [discriminate|].
    intros H. now rewrite IH.
Qed.

Lemma split_on_concat c (fs : list string) :
  fs <> [] ->
  Forall (fun f => count_char c f = O) fs ->
  split_on c (String.concat (String c "") fs) = fs.
Proof.
  induction fs as [|f fs IH]; [congruence|].
  intros _ Hall. inversion Hall as [|? ? Hf Hfs]; subst.
  destruct fs as [|g fs].
  - simpl. now apply split_on_absent.
  - change (String.concat (String c "") (f :: g :: fs))
      with (f ++ String c (String.concat (String c "") (g :: fs))).
    rewrite split_on_app by assumption.
    now rewrite IH.
Qed.

Lemma chop_last_app s c : chop_last (s ++ String c "") = s.
Proof.
  induction s as [|d s IH]; [reflexivity|].
  simpl. destruct (s ++ String c "") eqn:E.
  - destruct s; discriminate E.
  - now rewrite IH.
Qed.

Lemma is_digit_field c : is_digit c = true -> field_char c = true.
Proof. intros H. unfold field_char. now rewrite H. Qed.

Lemma is_upper_field c : is_upper c = true -> field_char c = true.
Proof. intros H. unfold field_char. rewrite H. now rewrite orb_true_r. Qed.

Lemma field_char_count s :
  all_chars field_char s = true ->
  count_char "," s = O /\ count_char LF s = O.
Proof.
  intros H. split; eapply all_chars_count; try exact H; reflexivity.
Qed.

(** ** Decimal digits *)

Lemma digit_cases d :
  0 <= d < 10 ->
  d = 0 \/ d = 1 \/ d = 2 \/ d = 3 \/ d = 4 \/ d = 5 \/ d = 6 \/ d = 7
  \/ d = 8 \/ d = 9.
Proof. lia. Qed.

Ltac each_digit H :=
  apply digit_cases in H;
  repeat (destruct H as [H|H]; [subst; reflexivity|]); subst; reflexivity.

Lemma is_digit_digit_char d : 0 <= d < 10 -> is_digit (digit_char d) = true.
Proof. intros H. each_digit H. Qed.

Lemma digit_value_digit_char d :
  0 <= d < 10 -> digit_value (digit_char d) = d.
Proof. intros H. each_digit H. Qed.

Lemma mod10_range n : 0 <= n mod 10 < 10.
Proof. apply Z.mod_pos_bound. lia. Qed.

Lemma fmt_u_aux_digits fuel : forall n,
  all_chars is_digit (fmt_u_aux fuel n) = true.
Proof.
  induction fuel as [|f IH]; intros n; cbn [fmt_u_aux]; [reflexivity|].
  rewrite all_chars_app. cbn [all_chars].
  rewrite (is_digit_digit_char _ (mod10_range n)).
  destruct (n <? 10); cbn [all_chars andb]; [reflexivity|]. now rewrite IH.
Qed.

Lemma fmt_u_aux_length fuel : forall n (k : nat),
  (1 <= k)%nat -> n < 10 ^ Z.of_nat k ->
  (String.length (fmt_u_aux fuel n) <= k)%nat.
Proof.
  induction fuel as [|f IH]; intros n k Hk Hn; cbn [fmt_u_aux String.length];
    [lia|].
  rewrite length_append. cbn [String.length].
  destruct (Z.ltb_spec n 10) as [Hlt|Hge]; cbn [String.length]; [lia|].
  destruct k as [|[|k]]; [lia| change (10 ^ Z.of_nat 1) with 10 in Hn; lia |].
  assert (Hdiv : n / 10 < 10 ^ Z.of_nat (S k)).
  { apply Z.div_lt_upper_bound; [lia|].
    replace (Z.of_nat (S (S k))) with (Z.succ (Z.of_nat (S k))) in Hn by lia.
    rewrite Z.pow_succ_r in Hn by lia. exact Hn. }
  specialize (IH (n / 10) (S k) ltac:(lia) Hdiv). lia.
Qed.

Lemma fmt_u_aux_nonempty fuel n :
  (1 <= String.length (fmt_u_aux (S fuel) n))%nat.
Proof. cbn [fmt_u_aux]. rewrite length_append. cbn [String.length]. lia. Qed.

Lemma digits_value_app s : forall acc t,
  digits_value acc (s ++ t) = digits_value (digits_value acc s) t.
Proof. induction s as [|c s IH]; intros; simpl; [reflexivity | apply IH]. Qed.

Lemma fmt_u_aux_value fuel : forall n,
  0 <= n < 2 ^ Z.of_nat fuel -> digits_value 0 (fmt_u_aux fuel n) = n.
Proof.
  induction fuel as [|f IH]; intros n Hn.
  - change (2 ^ Z.of_nat 0) with 1 in Hn. cbn [fmt_u_aux digits_value]. lia.
  - cbn [fmt_u_aux]. rewrite digits_value_app. cbn [digits_value].
    rewrite (digit_value_digit_char _ (mod10_range n)).
    destruct (Z.ltb_spec n 10) as [Hlt|Hge].
    + cbn [digits_value]. rewrite Z.mod_small by lia. lia.
    + rewrite IH.
      * pose proof (Z.div_mod n 10 ltac:(lia)). lia.
      * replace (Z.of_nat (S f)) with (Z.succ (Z.of_nat f)) in Hn by lia.
        rewrite Z.pow_succ_r in Hn by lia.
        split; [apply Z.div_pos; lia|].
        apply Z.div_lt_upper_bound; lia.
Qed.

Lemma fmt_u_fuel n : 0 <= n -> n < 2 ^ Z.of_nat (S (Z.to_nat (Z.log2 n))).
Proof.
  intros Hn.
  replace (Z.of_nat (S (Z.to_nat (Z.log2 n)))) with (Z.succ (Z.log2 n))
    by (pose proof (Z.log2_nonneg n); lia).
  destruct (Z.eq_dec n 0) as [->|Hnz]; [reflexivity|].
  apply Z.log2_spec. lia.
Qed.

Lemma fmt_u_digits n : all_chars is_digit (fmt_u n) = true.
Proof. apply fmt_u_aux_digits. Qed.

Lemma fmt_u_nonempty n : (1 <= String.length (fmt_u n))%nat.
Proof. apply fmt_u_aux_nonempty. Qed.

Lemma fmt_u_length n (k : nat) :
  (1 <= k)%nat -> n < 10 ^ Z.of_nat k -> (String.length (fmt_u n) <= k)%nat.
Proof. apply fmt_u_aux_length. Qed.

Lemma fmt_u_value n : 0 <= n -> digits_value 0 (fmt_u n) = n.
Proof.
  intros Hn. apply fmt_u_aux_value. split; [exact Hn | now apply fmt_u_fuel].
Qed.

Lemma fmt_u_unsigned_decimal n : unsigned_decimal (fmt_u n) = true.
Proof.
  unfold unsigned_decimal. rewrite fmt_u_digits.
  pose proof (fmt_u_nonempty n) as H.
  destruct (fmt_u n); [cbn [String.length] in H; lia | reflexivity].
Qed.

(** The text of a natural number starts with a digit, not with a sign. *)
Lemma fmt_u_head n :
  exists c s, fmt_u n = String c s /\ is_digit c = true.
Proof.
  pose proof (fmt_u_nonempty n) as Hl. pose proof (fmt_u_digits n) as Hd.
  destruct (fmt_u n) as [|c s]; [cbn [String.length] in Hl; lia|].
  cbn [all_chars] in Hd. apply andb_true_iff in Hd as [Hc _]. now exists c, s.
Qed.

Lemma digit_not_minus c : is_digit c = true -> Ascii.eqb c "-" = false.
Proof.
  intros H. destruct (Ascii.eqb_spec c "-") as [->|]; [discriminate H|reflexivity].
Qed.

Lemma fmt_d_decimal z : is_decimal (fmt_d z) = true.
Proof.
  unfold fmt_d. destruct (z <? 0).
  - cbn [is_decimal]. rewrite Ascii.eqb_refl. apply fmt_u_unsigned_decimal.
  - destruct (fmt_u_head z) as (c & s & E & Hc).
    pose proof (fmt_u_unsigned_decimal z) as Hu. rewrite E in *.
    unfold is_decimal. now rewrite (digit_not_minus _ Hc).
Qed.

Lemma read_d_fmt_d z : read_d (fmt_d z) = z.
Proof.
  unfold fmt_d. destruct (Z.ltb_spec z 0) as [Hneg|Hpos].
  - cbn [read_d]. rewrite Ascii.eqb_refl, fmt_u_value by lia. lia.
  - destruct (fmt_u_head z) as (c & s & E & Hc).
    pose proof (fmt_u_value z Hpos) as Hv. rewrite E in *.
    unfold read_d. now rewrite (digit_not_minus _ Hc).
Qed.

Lemma fmt_d_field z : all_chars field_char (fmt_d z) = true.
Proof.
  unfold fmt_d. destruct (z <? 0); cbn [all_chars].
  - change (field_char "-") with true. cbn [andb].
    apply (all_chars_weaken is_digit); [apply is_digit_field | apply fmt_u_digits].
  - apply (all_chars_weaken is_digit); [apply is_digit_field | apply fmt_u_digits].
Qed.

Lemma to_int32_range z : - 2 ^ 31 <= to_int32 z < 2 ^ 31.
Proof.
  unfold to_int32.
  pose proof (Z.mod_pos_bound (z + 2 ^ 31) (2 ^ 32) ltac:(lia)). lia.
Qed.

Lemma to_int32_small z : - 2 ^ 31 <= z < 2 ^ 31 -> to_int32 z = z.
Proof. intros H. unfold to_int32. rewrite Z.mod_small; lia. Qed.

Lemma fmt_d_length z :
  - 2 ^ 31 <= z < 2 ^ 31 -> (String.length (fmt_d z) <= 11)%nat.
Proof.
  intros Hz. unfold fmt_d.
  assert (E : 10 ^ Z.of_nat 10 = 10000000000) by reflexivity.
  destruct (Z.ltb_spec z 0); cbn [String.length].
  - pose proof (fmt_u_length (- z) 10 ltac:(lia) ltac:(lia)). lia.
  - pose proof (fmt_u_length z 10 ltac:(lia) ltac:(lia)). lia.
Qed.

(** ** Single-precision values and [%.4f] *)

Lemma float_of_bits_range b neg m e :
  float_of_bits b = FFinite neg m e ->
  0 <= m < 2 ^ 24 /\ -149 <= e <= 104.
Proof.
  unfold float_of_bits.
  change 255 with (Z.ones 8). change (2 ^ 23 - 1) with (Z.ones 23).
  rewrite !Z.land_ones by lia.
  pose proof (Z.mod_pos_bound (Z.shiftr b 23) (2 ^ 8) ltac:(lia)) as Hex.
  pose proof (Z.mod_pos_bound b (2 ^ 23) ltac:(lia)) as Hfr.
  change (Z.ones 8) with 255.
  generalize dependent (Z.shiftr b 23 mod 2 ^ 8). intros ex Hex.
  generalize dependent (b mod 2 ^ 23). intros frac Hfr.
  change (2 ^ 8) with 256 in Hex. change (2 ^ 23) with 8388608 in *.
  change (2 ^ 24) with 16777216.
  destruct (Z.eqb_spec ex 255) as [E255|N255].
  - destruct (frac =? 0); discriminate.
  - destruct (Z.eqb_spec ex 0) as [E0|N0];
      intros H; injection H as <- <- <-; lia.
Qed.

Lemma round_half_even_bounds num den :
  0 <= num -> 0 < den ->
  0 <= round_half_even num den <= num + 1.
Proof.
  intros Hnum Hden. unfold round_half_even.
  assert (H0 : 0 <= num / den) by (apply Z.div_pos; lia).
  assert (H1 : num / den <= num).
  { apply Z.div_le_upper_bound; nia. }
  destruct (2 * (num mod den) <? den); [lia|].
  destruct (den <? 2 * (num mod den)); [lia|].
  destruct (Z.even (num / den)); lia.
Qed.

Lemma scaled4_bounds m e :
  0 <= m < 2 ^ 24 -> -149 <= e <= 104 ->
  0 <= scaled4 m e /\ scaled4 m e / 10000 < 10 ^ 39.
Proof.
  intros Hm He. unfold scaled4.
  destruct (Z.leb_spec 0 e) as [Hpos|Hneg].
  - assert (Hp : 0 < 2 ^ e) by (apply Z.pow_pos_nonneg; lia).
    assert (Hq : 2 ^ e <= 2 ^ 104) by (apply Z.pow_le_mono_r; lia).
    split; [nia|].
    rewrite Z.div_mul by lia.
    assert (Hb : 2 ^ 24 * 2 ^ 104 < 10 ^ 39) by reflexivity.
    nia.
  - assert (Hp : 0 < 2 ^ (- e)) by (apply Z.pow_pos_nonneg; lia).
    pose proof (round_half_even_bounds (m * 10000) (2 ^ (- e))
                  ltac:(lia) Hp) as [Hlo Hhi].
    split; [exact Hlo|].
    apply Z.div_lt_upper_bound; [lia|].
    assert (Hb : 2 ^ 24 * 10000 + 1 < 10000 * 10 ^ 39) by reflexivity.
    lia.
Qed.

Lemma frac4_digits n : all_chars is_digit (frac4 n) = true.
Proof.
  unfold frac4. cbn [all_chars].
  now rewrite !is_digit_digit_char by apply mod10_range.
Qed.

Lemma frac4_length n : String.length (frac4 n) = 4%nat.
Proof. reflexivity. Qed.

Lemma digits_no_point s :
  all_chars is_digit s = true -> count_char "." s = O.
Proof. apply all_chars_count. reflexivity. Qed.

Lemma unsigned_fixed4_intro ip fp :
  (1 <= String.length ip)%nat -> all_chars is_digit ip = true ->
  String.length fp = 4%nat -> all_chars is_digit fp = true ->
  unsigned_fixed4 (ip ++ String "." fp) = true.
Proof.
  intros Hl Hip Hfl Hfp. unfold unsigned_fixed4.
  rewrite split_on_app by now apply digits_no_point.
  rewrite split_on_absent by now apply digits_no_point.
  rewrite Hip, Hfp, Hfl.
  destruct ip; [cbn [String.length] in Hl; lia | reflexivity].
Qed.

Lemma fmt_f4_finite_fixed neg m e :
  is_fixed4 (fmt_f4 (FFinite neg m e)) = true.
Proof.
  unfold fmt_f4. cbv zeta.
  set (ip := fmt_u (scaled4 m e / 10000)).
  set (fp := frac4 (scaled4 m e mod 10000)).
  assert (Hu : unsigned_fixed4 (ip ++ String "." fp) = true).
  { apply unsigned_fixed4_intro.
    - apply fmt_u_nonempty.
    - apply fmt_u_digits.
    - apply frac4_length.
    - apply frac4_digits. }
  destruct neg; cbn [sign_text append is_fixed4].
  - now rewrite Ascii.eqb_refl.
  - destruct (fmt_u_head (scaled4 m e / 10000)) as (c & s & E & Hc).
    fold ip in E. rewrite E in *. cbn [append is_fixed4].
    now rewrite (digit_not_minus _ Hc).
Qed.

Lemma sign_text_field neg : all_chars field_char (sign_text neg) = true.
Proof. destruct neg; reflexivity. Qed.

Lemma sign_text_length neg : (String.length (sign_text neg) <= 1)%nat.
Proof. destruct neg; cbn; lia. Qed.

Lemma fmt_f4_field x : all_chars field_char (fmt_f4 x) = true.
Proof.
  destruct x as [neg m e|neg|neg]; unfold fmt_f4; cbv zeta.
  - rewrite !all_chars_app, sign_text_field. cbn [all_chars andb].
    rewrite (all_chars_weaken is_digit field_char _ is_digit_field
               (fmt_u_digits _)).
    rewrite (all_chars_weaken is_digit field_char _ is_digit_field
               (frac4_digits _)).
    reflexivity.
  - rewrite all_chars_app, sign_text_field. reflexivity.
  - rewrite all_chars_app, sign_text_field. reflexivity.
Qed.

Lemma fmt_f4_length b : (String.length (fmt_f4 (float_of_bits b)) <= 45)%nat.
Proof.
  destruct (float_of_bits b) as [neg m e|neg|neg] eqn:E;
    unfold fmt_f4; cbv zeta; rewrite !length_append;
    pose proof (sign_text_length neg) as Hs.
  - apply float_of_bits_range in E as [Hm He].
    destruct (scaled4_bounds m e Hm He) as [_ Hq].
    pose proof (fmt_u_length (scaled4 m e / 10000) 39 ltac:(lia) Hq).
    cbn [String.length]. rewrite frac4_length. lia.
  - cbn [String.length]. lia.
  - cbn [String.length]. lia.
Qed.

Lemma fmt_f4_nonfinite x :
  is_finite x = false ->
  is_nonfinite_text (fmt_f4 x) = true /\ is_fixed4 (fmt_f4 x) = false.
Proof.
  destruct x as [neg m e|[|]|[|]]; intros H; try discriminate H;
    split; reflexivity.
Qed.

Lemma fmt_f4_shape b : float_text_ok b.
Proof.
  unfold float_text_ok.
  destruct (float_of_bits b) as [neg m e|neg|neg] eqn:E; cbn [is_finite].
  - apply fmt_f4_finite_fixed.
  - now apply fmt_f4_nonfinite.
  - now apply fmt_f4_nonfinite.
Qed.

(** ** State labels *)

Lemma canonical_label_inj v w : canonical_label v = canonical_label w -> v = w.
Proof. destruct v, w; intros H; try reflexivity; discriminate H. Qed.

Lemma canonical_label_upper v : all_chars is_upper (canonical_label v) = true.
Proof. destruct v; reflexivity. Qed.

Lemma canonical_label_known v : canonical_label v <> unknown_label.
Proof. destruct v; discriminate. Qed.

Lemma default_code_inj v w : default_code v = default_code w -> v = w.
Proof. destruct v, w; intros H; try reflexivity; discriminate H. Qed.

Section StateName.

Variable code : VehicleState_t -> Z.

(** The case constants of a [switch] are pairwise distinct: the compiler
    rejects a duplicate. *)
Hypothesis code_inj : forall v w, code v = code w -> v = w.

Lemma code_eqb_neq v w : v <> w -> (code v =? code w) = false.
Proof.
  intros Hvw. apply Z.eqb_neq. intro E. apply Hvw, code_inj, E.
Qed.

Lemma state_name_code v : state_name code (code v) = canonical_label v.
Proof.
  unfold state_name.
  destruct v; cbn [canonical_label];
    repeat (rewrite Z.eqb_refl || rewrite code_eqb_neq by discriminate);
    reflexivity.
Qed.

End StateName.

Lemma state_name_other code state :
  (forall v, state <> code v) -> state_name code state = unknown_label.
Proof.
  intros H. unfold state_name.
  repeat match goal with
         | |- context [state =? code ?b] =>
             destruct (Z.eqb_spec state (code b)) as [E|E];
             [ exfalso; exact (H _ E) | clear E ]
         end.
  reflexivity.
Qed.

(** ** Rows *)

Section Rows.

Variable code : VehicleState_t -> Z.

Lemma state_name_cases s :
  state_name code s = unknown_label
  \/ exists v, state_name code s = canonical_label v.
Proof.
  unfold state_name.
  destruct (s =? code PRELTOFF); [right; now exists PRELTOFF|].
  destruct (s =? code PWFLIGHT); [right; now exists PWFLIGHT|].
  destruct (s =? code CRUISING); [right; now exists CRUISING|].
  destruct (s =? code CRSCANRD); [right; now exists CRSCANRD|].
  destruct (s =? code FALLDROG); [right; now exists FALLDROG|].
  destruct (s =? code FALLMAIN); [right; now exists FALLMAIN|].
  destruct (s =? code CONCLUDE); [right; now exists CONCLUDE|].
  now left.
Qed.

Lemma state_name_field s : all_chars field_char (state_name code s) = true.
Proof.
  destruct (state_name_cases s) as [-> | [v ->]]; [reflexivity|].
  destruct v; reflexivity.
Qed.

Lemma state_name_length s : (String.length (state_name code s) <= 8)%nat.
Proof.
  destruct (state_name_cases s) as [-> | [v ->]]; [cbn; lia|].
  destruct v; cbn; lia.
Qed.

(** The text [sprintf] builds from the format and the 21 arguments. *)
Lemma format_text_row vec :
  format_text row_format
    [ arg_double (float_of_bits (time vec));
      arg_str (state_name code (to_uint8 (state vec)));
      arg_double (float_of_bits (altitude vec));
      arg_double (float_of_bits (velocity vec));
      arg_double (float_of_bits (acceleration vec));
      arg_double (float_of_bits (pressure vec));
      arg_double (float_of_bits (temperature vec));
      arg_double (float_of_bits (baro_altitude vec));
      arg_int (to_int32 (imu_temp vec));
      arg_double (float_of_bits (accel_x vec));
      arg_double (float_of_bits (accel_y vec));
      arg_double (float_of_bits (accel_z vec));
      arg_double (float_of_bits (accel_vertical vec));
      arg_double (float_of_bits (gyro_x vec));
      arg_double (float_of_bits (gyro_y vec));
      arg_double (float_of_bits (gyro_z vec));
      arg_double (float_of_bits (quat_w vec));
      arg_double (float_of_bits (quat_x vec));
      arg_double (float_of_bits (quat_y vec));
      arg_double (float_of_bits (quat_z vec));
      arg_double (float_of_bits (launchpad_altitude vec)) ]
  = Some (row_text code vec).
Proof.
  unfold row_text, row_fields. cbn [String.concat].
  rewrite !app_assoc_str. cbn [append].
  reflexivity.
Qed.

Lemma row_fields_field vec :
  Forall (fun f => all_chars field_char f = true) (row_fields code vec).
Proof.
  unfold row_fields.
  repeat (apply Forall_cons;
          [first [apply fmt_f4_field | apply state_name_field | apply fmt_d_field]|]).
  apply Forall_nil.
Qed.

Lemma row_fields_no_comma vec :
  Forall (fun f => count_char "," f = O) (row_fields code vec).
Proof.
  eapply Forall_impl; [|apply row_fields_field].
  intros f Hf. now apply field_char_count.
Qed.

Lemma row_text_length vec : (String.length (row_text code vec) < 1024)%nat.
Proof.
  unfold row_text, row_fields. cbn [String.concat].
  repeat (rewrite length_append; cbn [String.length]).
  change (String.length nl) with 1%nat.
  pose proof (state_name_length (to_uint8 (state vec))).
  pose proof (fmt_d_length _ (to_int32_range (imu_temp vec))).
  pose proof (fmt_f4_length (time vec)).
  pose proof (fmt_f4_length (altitude vec)).
  pose proof (fmt_f4_length (velocity vec)).
  pose proof (fmt_f4_length (acceleration vec)).
  pose proof (fmt_f4_length (pressure vec)).
  pose proof (fmt_f4_length (temperature vec)).
  pose proof (fmt_f4_length (baro_altitude vec)).
  pose proof (fmt_f4_length (accel_x vec)).
  pose proof (fmt_f4_length (accel_y vec)).
  pose proof (fmt_f4_length (accel_z vec)).
  pose proof (fmt_f4_length (accel_vertical vec)).
  pose proof (fmt_f4_length (gyro_x vec)).
  pose proof (fmt_f4_length (gyro_y vec)).
  pose proof (fmt_f4_length (gyro_z vec)).
  pose proof (fmt_f4_length (quat_w vec)).
  pose proof (fmt_f4_length (quat_x vec)).
  pose proof (fmt_f4_length (quat_y vec)).
  pose proof (fmt_f4_length (quat_z vec)).
  pose proof (fmt_f4_length (launchpad_altitude vec)).
  lia.
Qed.

(** The [sprintf] call of the loop body is defined for every record: the
    row always fits the buffer. *)
Lemma FormatRow_defined vec : FormatRow code vec = Some (row_text code vec).
Proof.
  unfold FormatRow, sprintf. rewrite format_text_row.
  pose proof (row_text_length vec) as Hl.
  apply Nat.ltb_lt in Hl. unfold record_size. now rewrite Hl.
Qed.

Lemma fields_of_row_text vec :
  fields_of_row (row_text code vec) = row_fields code vec.
Proof.
  unfold fields_of_row, row_text, nl. rewrite chop_last_app.
  apply split_on_concat; [discriminate | apply row_fields_no_comma].
Qed.

Lemma count_concat c sep (fs : list string) :
  Forall (fun f => count_char c f = O) fs ->
  count_char c (String.concat sep fs)
  = (Nat.pred (List.length fs) * count_char c sep)%nat.
Proof.
  induction fs as [|f fs IH]; [reflexivity|].
  intros Hall. inversion Hall as [|? ? Hf Hfs]; subst.
  destruct fs as [|g fs].
  - cbn. rewrite Hf. reflexivity.
  - change (String.concat sep (f :: g :: fs))
      with (f ++ sep ++ String.concat sep (g :: fs)).
    rewrite !count_char_app, Hf, (IH Hfs). cbn [List.length Nat.pred]. lia.
Qed.

Lemma row_text_commas vec : count_char "," (row_text code vec) = 20%nat.
Proof.
  unfold row_text. rewrite count_char_app.
  rewrite count_concat by apply row_fields_no_comma. reflexivity.
Qed.

Lemma row_text_lines vec : count_char LF (row_text code vec) = 1%nat.
Proof.
  unfold row_text. rewrite count_char_app.
  rewrite count_concat.
  - reflexivity.
  - eapply Forall_impl; [|apply row_fields_field].
    intros f Hf. now apply field_char_count.
Qed.

Lemma float_fields_ok vec : Forall float_text_ok (float_fields vec).
Proof.
  unfold float_fields.
  repeat (apply Forall_cons; [apply fmt_f4_shape|]). apply Forall_nil.
Qed.

End Rows.

(** ** The read loop *)

Lemma fread_full size (s : list byte) :
  (0 < size <= List.length s)%nat ->
  fread size s = (Some (firstn size s), skipn size s).
Proof.
  intros H. unfold fread.
  destruct (Nat.eqb_spec size 0); [lia|].
  destruct (Nat.ltb_spec (List.length s) size); [lia | reflexivity].
Qed.

Lemma fread_item size (s item rest : list byte) :
  fread size s = (Some item, rest) ->
  (0 < size <= List.length s)%nat
  /\ item = firstn size s /\ rest = skipn size s.
Proof.
  unfold fread.
  destruct (Nat.eqb_spec size 0) as [Hz|Hnz]; [discriminate|].
  destruct (Nat.ltb_spec (List.length s) size) as [Hlt|Hge]; [discriminate|].
  intros E. injection E as <- <-. repeat split; lia.
Qed.

Lemma record_count_short size (s : list byte) :
  (List.length s < size)%nat -> record_count size s = O.
Proof. intros H. unfold record_count. now apply Nat.div_small. Qed.

Lemma record_count_full size (s : list byte) :
  (0 < size <= List.length s)%nat ->
  record_count size s = S (record_count size (skipn size s)).
Proof.
  intros H. unfold record_count. rewrite length_skipn.
  replace (List.length s) with (List.length s - size + 1 * size)%nat at 1 by lia.
  rewrite Nat.div_add by lia. lia.
Qed.

Lemma count_after_mod n : forall c,
  0 <= c < 2 ^ 32 -> count_after c n = (c + Z.of_nat n) mod 2 ^ 32.
Proof.
  induction n as [|n IH]; intros c Hc.
  - cbn [count_after]. rewrite Z.add_0_r, Z.mod_small; lia.
  - cbn [count_after]. rewrite IH by (apply Z.mod_pos_bound; lia).
    unfold to_uint32. rewrite Zplus_mod_idemp_l. f_equal. lia.
Qed.

Lemma concat_rows_app rows1 rows2 :
  concat_rows (rows1 ++ rows2)%list = concat_rows rows1 ++ concat_rows rows2.
Proof.
  induction rows1 as [|r rows1 IH]; [reflexivity|].
  cbn [concat_rows List.app]. now rewrite IH, app_assoc_str.
Qed.

Lemma count_concat_rows c rows :
  Forall (fun r => count_char c r = 1%nat) rows ->
  count_char c (concat_rows rows) = List.length rows.
Proof.
  induction 1 as [|r rows Hr _ IH]; [reflexivity|].
  cbn [concat_rows List.length]. rewrite count_char_app. lia.
Qed.

Section Loop.

Variable code : VehicleState_t -> Z.
Variable sizeof_vec : nat.
Variable load_vec : list byte -> MainStateVector_t.

Local Abbreviation step' := (step code sizeof_vec load_vec).
Local Abbreviation run' := (run code sizeof_vec load_vec).
Local Abbreviation main' := (main code sizeof_vec load_vec).
Local Abbreviation rows' := (decoded_rows code sizeof_vec load_vec).

Lemma step_record p_fin c out :
  (0 < sizeof_vec <= List.length p_fin)%nat ->
  step' (Reading p_fin c out)
  = Reading (skipn sizeof_vec p_fin) (to_uint32 (c + 1))
      (out ++ row_text code (load_vec (firstn sizeof_vec p_fin))).
Proof.
  intros H. cbn [step]. rewrite fread_full by exact H.
  now rewrite FormatRow_defined.
Qed.

Lemma step_end p_fin c out :
  (List.length p_fin < sizeof_vec)%nat \/ sizeof_vec = O ->
  step' (Reading p_fin c out) = Done c out.
Proof.
  intros H. cbn [step].
  destruct (fread sizeof_vec p_fin) as [[item|] rest] eqn:E; [|reflexivity].
  apply fread_item in E. lia.
Qed.

Lemma decoded_rows_end bytes :
  (List.length bytes < sizeof_vec)%nat \/ sizeof_vec = O ->
  rows' bytes = [].
Proof.
  intros H. unfold decoded_rows, complete_records.
  replace (record_count sizeof_vec bytes) with O; [reflexivity|].
  destruct H as [H| ->].
  - now rewrite record_count_short.
  - reflexivity.
Qed.

Lemma decoded_rows_record bytes :
  (0 < sizeof_vec <= List.length bytes)%nat ->
  rows' bytes
  = row_text code (load_vec (firstn sizeof_vec bytes))
      :: rows' (skipn sizeof_vec bytes).
Proof.
  intros H. unfold decoded_rows, complete_records.
  rewrite (record_count_full _ _ H). reflexivity.
Qed.

Lemma decoded_rows_length bytes :
  List.length (rows' bytes) = record_count sizeof_vec bytes.
Proof.
  unfold decoded_rows, complete_records. rewrite length_map.
  generalize (record_count sizeof_vec bytes) as n. intros n. revert bytes.
  induction n as [|n IH]; intros bytes; [reflexivity|].
  cbn [chunks List.length]. now rewrite IH.
Qed.

(** The loop ends, in [Done], once it has read every complete record. *)
Lemma run_reading fuel : forall bytes c out,
  (List.length bytes < fuel)%nat ->
  run' fuel (Reading bytes c out)
  = Some (Done (count_after c (record_count sizeof_vec bytes))
            (out ++ concat_rows (rows' bytes))).
Proof.
  induction fuel as [|fuel IH]; intros bytes c out Hfuel; [lia|].
  cbn [run].
  destruct (Nat.eq_dec sizeof_vec 0) as [Hz|Hnz];
    [|destruct (Nat.lt_ge_cases (List.length bytes) sizeof_vec) as [Hlt|Hge]].
  - rewrite step_end, decoded_rows_end by now right.
    rewrite Hz. unfold record_count. cbn [Nat.div count_after concat_rows].
    rewrite app_empty_r. now destruct fuel.
  - rewrite step_end, decoded_rows_end by now left.
    rewrite record_count_short by exact Hlt. cbn [count_after concat_rows].
    rewrite app_empty_r. now destruct fuel.
  - rewrite step_record, decoded_rows_record, record_count_full by lia.
    rewrite IH by (rewrite length_skipn; lia).
    cbn [count_after concat_rows]. now rewrite app_assoc_str.
Qed.


Lemma format_text_count z :
  format_text count_format [arg_int z] = Some (count_line z).
Proof. reflexivity. Qed.

(** A run on a dump that opens: [main] returns, having written the header
    and the rows of the complete records, and printed the count. *)
Lemma main_decodes fuel fs bytes :
  fin_file fs = Some bytes -> fout_writable fs = true ->
  (List.length bytes < fuel)%nat ->
  main' fuel fs
  = Some (Returned 0 (header ++ concat_rows (rows' bytes))
            (count_line
               (to_int32 (to_uint32 (Z.of_nat (record_count sizeof_vec bytes)))))).
Proof.
  intros Hin Hout Hfuel. unfold main. rewrite Hin, Hout.
  change ("" ++ header) with header.
  rewrite run_reading by exact Hfuel.
  rewrite format_text_count, count_after_mod by lia.
  reflexivity.
Qed.

Lemma rows_one_line bytes :
  Forall (fun r => count_char LF r = 1%nat) (rows' bytes).
Proof.
  unfold decoded_rows. apply Forall_map, Forall_forall.
  intros r _. apply row_text_lines.
Qed.

Lemma csv_lines bytes :
  count_char LF (header ++ concat_rows (rows' bytes))
  = S (record_count sizeof_vec bytes).
Proof.
  rewrite count_char_app, (count_concat_rows _ _ (rows_one_line bytes)).
  now rewrite decoded_rows_length.
Qed.

Lemma rows_per_FormatRow bytes :
  Forall2 (fun r row => FormatRow code (load_vec r) = Some row)
    (complete_records sizeof_vec bytes) (rows' bytes).
Proof.
  unfold decoded_rows.
  induction (complete_records sizeof_vec bytes) as [|r rs IH];
    cbn [map]; constructor; [apply FormatRow_defined | exact IH].
Qed.

Lemma shown_count_small (n : nat) :
  Z.of_nat n < 2 ^ 31 -> to_int32 (to_uint32 (Z.of_nat n)) = Z.of_nat n.
Proof.
  intros H. unfold to_uint32. rewrite Z.mod_small by lia.
  apply to_int32_small. lia.
Qed.

(** A trailing fragment changes neither the complete records nor their
    number. *)
Lemma chunks_app n : forall (whole frag : list byte),
  List.length whole = (n * sizeof_vec)%nat ->
  chunks sizeof_vec n (whole ++ frag) = chunks sizeof_vec n whole.
Proof.
  induction n as [|n IH]; intros whole frag Hlen; [reflexivity|].
  cbn [chunks].
  rewrite firstn_app, skipn_app.
  replace (sizeof_vec - List.length whole)%nat with O by lia.
  cbn [firstn skipn]. rewrite app_nil_r. f_equal.
  apply IH. rewrite length_skipn. lia.
Qed.

Lemma record_count_app (whole frag : list byte) n :
  List.length whole = (n * sizeof_vec)%nat ->
  (List.length frag < sizeof_vec)%nat ->
  record_count sizeof_vec (whole ++ frag) = n.
Proof.
  intros Hw Hf. unfold record_count. rewrite List.length_app, Hw.
  rewrite Nat.div_add_l by lia. rewrite (Nat.div_small _ _ Hf). lia.
Qed.

Lemma record_count_whole (whole : list byte) n :
  List.length whole = (n * sizeof_vec)%nat ->
  (0 < sizeof_vec)%nat ->
  record_count sizeof_vec whole = n.
Proof.
  intros Hw Hs. unfold record_count. rewrite Hw. apply Nat.div_mul. lia.
Qed.

Lemma rows_app (whole frag : list byte) n :
  List.length whole = (n * sizeof_vec)%nat ->
  (List.length frag < sizeof_vec)%nat ->
  rows' (whole ++ frag) = rows' whole.
Proof.
  intros Hw Hf. unfold decoded_rows, complete_records.
  rewrite (record_count_app _ _ _ Hw Hf).
  rewrite (record_count_whole _ _ Hw) by lia.
  now rewrite (chunks_app _ _ _ Hw).
Qed.

End Loop.

(** ** The packed layout *)

Lemma get_le_split {A : Type} n (k : Z -> list byte -> A) z rest :
  get_le n k (le_split n z ++ rest)%list = k (z mod 2 ^ (Z.of_nat n * 8)) rest.
Proof.
  unfold get_le.
  rewrite firstn_app, skipn_app, length_le_split, Nat.sub_diag.
  rewrite <- (length_le_split n z) at 1 3.
  rewrite firstn_all, skipn_all. cbn [firstn skipn List.app].
  now rewrite app_nil_r, le_combine_split.
Qed.

Lemma store_packed_length vec : List.length (store_packed vec) = packed_sizeof.
Proof.
  unfold store_packed. rewrite !List.length_app, !length_le_split. reflexivity.
Qed.

Lemma to_int32_wrap z : - 2 ^ 31 <= z < 2 ^ 31 -> to_int32 (z mod 2 ^ 32) = z.
Proof.
  intros Hz. unfold to_int32.
  rewrite Zplus_mod_idemp_l. rewrite Z.mod_small; lia.
Qed.

Lemma load_store_packed vec : wf_vec vec -> load_packed (store_packed vec) = vec.
Proof.
  destruct vec. unfold wf_vec, float_fields, store_packed, load_packed.
  cbn [time state altitude velocity acceleration pressure temperature
       baro_altitude imu_temp accel_x accel_y accel_z accel_vertical
       gyro_x gyro_y gyro_z quat_w quat_x quat_y quat_z launchpad_altitude].
  intros (Hf & Hs & Hi).
  rewrite <- (app_nil_r (le_split 4 launchpad_altitude0)).
  repeat (rewrite get_le_split; cbv beta).
  change (2 ^ (Z.of_nat 4 * 8)) with (2 ^ 32).
  change (2 ^ (Z.of_nat 1 * 8)) with (2 ^ 8).
  repeat match goal with
         | H : Forall _ (_ :: _) |- _ =>
             let Hx := fresh "Hx" in
             inversion H as [|? ? Hx ?]; subst; clear H;
             unfold is_float_bits in Hx
         end.
  rewrite to_int32_wrap by exact Hi.
  rewrite !Z.mod_small by assumption.
  reflexivity.
Qed.

Lemma fread_store_packed vec rest :
  fread packed_sizeof (store_packed vec ++ rest)%list
  = (Some (store_packed vec), rest).
Proof.
  rewrite fread_full.
  - rewrite firstn_app, skipn_app, store_packed_length, Nat.sub_diag.
    rewrite <- (store_packed_length vec) at 1 2.
    rewrite firstn_all, skipn_all. cbn [firstn skipn List.app].
    now rewrite app_nil_r.
  - rewrite List.length_app, store_packed_length. unfold packed_sizeof. lia.
Qed.

(** ** The sample inputs *)

Lemma sample_vec_wf : wf_vec sample_vec.
Proof.
  unfold wf_vec, is_float_bits, sample_vec, float_fields.
  cbn [time state altitude velocity acceleration pressure temperature
       baro_altitude imu_temp accel_x accel_y accel_z accel_vertical
       gyro_x gyro_y gyro_z quat_w quat_x quat_y quat_z launchpad_altitude].
  split; [|lia].
  repeat (apply Forall_cons; [lia|]). apply Forall_nil.
Qed.

Lemma packed_sizeof_pos : (0 < packed_sizeof)%nat.
Proof. unfold packed_sizeof. lia. Qed.

Lemma big_dump_length :
  List.length big_dump = (Z.to_nat (2 ^ 31) * packed_sizeof)%nat.
Proof. apply repeat_length. Qed.

Lemma big_dump_count : record_count packed_sizeof big_dump = Z.to_nat (2 ^ 31).
Proof.
  apply record_count_whole; [apply big_dump_length | unfold packed_sizeof; lia].
Qed.

Lemma big_fragment_count :
  record_count packed_sizeof (big_dump ++ [Byte.x01]) = Z.to_nat (2 ^ 31).
Proof.
  apply record_count_app; [apply big_dump_length | unfold packed_sizeof; cbn; lia].
Qed.

Lemma shown_count_2_31 :
  to_int32 (to_uint32 (Z.of_nat (Z.to_nat (2 ^ 31)))) = - 2 ^ 31.
Proof. rewrite Z2Nat.id by lia. reflexivity. Qed.

Lemma count_line_2_31 : count_line (- 2 ^ 31) <> count_line (2 ^ 31).
Proof. vm_compute. discriminate. Qed.

Lemma Returned_console s1 csv1 text1 s2 csv2 text2 :
  Returned s1 csv1 text1 = Returned s2 csv2 text2 -> text1 = text2.
Proof. intros H. now injection H. Qed.

(** ** The claims *)

Section Claims.

Variable code : VehicleState_t -> Z.
Variable sizeof_vec : nat.
Variable load_vec : list byte -> MainStateVector_t.

Local Abbreviation step' := (step code sizeof_vec load_vec).
Local Abbreviation run' := (run code sizeof_vec load_vec).
Local Abbreviation main' := (main code sizeof_vec load_vec).
Local Abbreviation rows' := (decoded_rows code sizeof_vec load_vec).

(** C1, as amended.  For every record the [sprintf] call is defined and
    yields one row: the 21 fields of the specification in its order,
    separated by single commas (20 in all), with no trailing separator and a
    single line feed, at the end.  Every floating-point field that holds a
    finite value is in fixed notation with exactly four fraction digits; one
    that holds an infinity or a NaN reads [inf], [-inf], [nan] or [-nan].
    The state field is the label [state_name] gives, the temperature field
    is a plain decimal integer. *)
Theorem FormatRow_row_shape (vec : MainStateVector_t) :
  exists row,
    FormatRow code vec = Some row
    /\ row = String.concat "," (row_fields code vec) ++ nl
    /\ fields_of_row row = row_fields code vec
    /\ List.length (fields_of_row row) = 21%nat
    /\ count_char "," row = 20%nat
    /\ count_char LF row = 1%nat
    /\ float_columns (fields_of_row row)
       = map (fun b => fmt_f4 (float_of_bits b)) (float_fields vec)
    /\ Forall float_text_ok (float_fields vec)
    /\ nth 1 (fields_of_row row) "" = state_name code (to_uint8 (state vec))
    /\ nth 8 (fields_of_row row) "" = fmt_d (to_int32 (imu_temp vec))
    /\ is_decimal (nth 8 (fields_of_row row) "") = true
    /\ read_d (nth 8 (fields_of_row row) "") = to_int32 (imu_temp vec).
Proof.
  exists (row_text code vec).
  rewrite fields_of_row_text.
  split; [apply FormatRow_defined|].
  split; [reflexivity|].
  split; [reflexivity|].
  split; [reflexivity|].
  split; [apply row_text_commas|].
  split; [apply row_text_lines|].
  split; [reflexivity|].
  split; [apply float_fields_ok|].
  split; [reflexivity|].
  split; [reflexivity|].
  cbn [row_fields nth].
  split; [apply fmt_d_decimal | apply read_d_fmt_d].
Qed.

(** C2.  [state_name] is defined on every code.  Each of the seven
    flight-state codes yields the canonical label of its state; these
    labels are pairwise distinct, uppercase, and none is the sentinel; every
    other code yields the sentinel [UNKNOWN]. *)
Theorem state_name_total :
  (forall v w, code v = code w -> v = w) ->
  (forall v, state_name code (code v) = canonical_label v)
  /\ (forall v w, state_name code (code v) = state_name code (code w) -> v = w)
  /\ (forall v, all_chars is_upper (state_name code (code v)) = true)
  /\ (forall v, state_name code (code v) <> unknown_label)
  /\ (forall state, (forall v, state <> code v) ->
        state_name code state = unknown_label)
  /\ (forall state,
        (exists v, state = code v /\ state_name code state = canonical_label v)
        \/ ((forall v, state <> code v)
            /\ state_name code state = unknown_label)).
Proof.
  intros code_inj.
  assert (Hcode : forall v, state_name code (code v) = canonical_label v)
    by (intro v; now apply state_name_code).
  split; [exact Hcode|].
  split; [intros v w; rewrite !Hcode; apply canonical_label_inj|].
  split; [intros v; rewrite Hcode; apply canonical_label_upper|].
  split; [intros v; rewrite Hcode; apply canonical_label_known|].
  split; [intros state; apply state_name_other|].
  intros state.
  assert (Hdec : (exists v, state = code v) \/ (forall v, state <> code v)).
  { destruct (Z.eq_dec state (code PRELTOFF)); [left; eauto|].
    destruct (Z.eq_dec state (code PWFLIGHT)); [left; eauto|].
    destruct (Z.eq_dec state (code CRUISING)); [left; eauto|].
    destruct (Z.eq_dec state (code CRSCANRD)); [left; eauto|].
    destruct (Z.eq_dec state (code FALLDROG)); [left; eauto|].
    destruct (Z.eq_dec state (code FALLMAIN)); [left; eauto|].
    destruct (Z.eq_dec state (code CONCLUDE)); [left; eauto|].
    right. intros []; assumption. }
  destruct Hdec as [[v ->]|Hnone].
  - left. exists v. split; [reflexivity | apply Hcode].
  - right. split; [exact Hnone | now apply state_name_other].
Qed.


(** C4, as amended.  For every dump of [n] complete records, the run writes
    the fixed header as line 1, then exactly [n] rows, one per record in
    file order, each being what the [sprintf] call gives for that record,
    so the file has [n + 1] lines; it then reports the count [n] whenever
    [n < 2^31], and in general [n] reduced modulo [2^32] and read as a
    signed 32-bit integer. *)
Theorem main_header_rows_count (fuel : nat) (fs : filesystem)
  (bytes : list byte) :
  fin_file fs = Some bytes -> fout_writable fs = true ->
  (List.length bytes < fuel)%nat ->
  let n := record_count sizeof_vec bytes in
  let shown := to_int32 (to_uint32 (Z.of_nat n)) in
  exists rows,
    main' fuel fs
    = Some (Returned 0 (header ++ concat_rows rows) (count_line shown))
    /\ Forall2 (fun r row => FormatRow code (load_vec r) = Some row)
         (complete_records sizeof_vec bytes) rows
    /\ List.length rows = n
    /\ count_char LF (header ++ concat_rows rows) = S n
    /\ (Z.of_nat n < 2 ^ 31 -> shown = Z.of_nat n)
    /\ header
       = "Time,State,Filtered Altitude,Filtered Velocity,Filtered Acceleration,Pressure,Temperature,Barometer Altitude,IMU Temperature,Accel X,Accel Y,Accel Z,Accel Vertical,Gyro X,Gyro Y,Gyro Z,Quat W,Quat X,Quat Y,Quat Z,LP Altitude"
         ++ nl.
Proof.
  intros Hin Hout Hfuel n shown. exists (rows' bytes).
  split; [now apply main_decodes|].
  split; [apply rows_per_FormatRow|].
  split; [apply decoded_rows_length|].
  split; [apply csv_lines|].
  split; [apply shown_count_small | reflexivity].
Qed.

(** A dump made of [n] complete records and a fragment shorter than a
    record is decoded as the [n] records alone. *)
Lemma main_whole_fragment (fuel : nat) (fs : filesystem)
  (whole frag : list byte) (n : nat) :
  List.length whole = (n * sizeof_vec)%nat ->
  (List.length frag < sizeof_vec)%nat ->
  fin_file fs = Some (whole ++ frag)%list -> fout_writable fs = true ->
  (List.length (whole ++ frag) < fuel)%nat ->
  record_count sizeof_vec (whole ++ frag) = n
  /\ main' fuel fs = main' fuel (with_input fs whole)
  /\ main' fuel fs
     = Some (Returned 0 (header ++ concat_rows (rows' whole))
               (count_line (to_int32 (to_uint32 (Z.of_nat n)))))
  /\ List.length (rows' whole) = n.
Proof.
  intros Hw Hf Hin Hout Hfuel.
  assert (Hn : record_count sizeof_vec (whole ++ frag) = n)
    by (apply record_count_app; [exact Hw | lia]).
  assert (Hn' : record_count sizeof_vec whole = n)
    by (apply record_count_whole; [exact Hw | lia]).
  assert (Hrun : main' fuel fs
     = Some (Returned 0 (header ++ concat_rows (rows' whole))
               (count_line (to_int32 (to_uint32 (Z.of_nat n)))))).
  { rewrite (main_decodes code sizeof_vec load_vec fuel fs _ Hin Hout Hfuel).
    rewrite (rows_app code sizeof_vec load_vec whole frag n Hw) by lia.
    now rewrite Hn. }
  split; [exact Hn|].
  split.
  - rewrite Hrun.
    rewrite (main_decodes code sizeof_vec load_vec fuel (with_input fs whole) whole)
      by (try reflexivity; try exact Hout;
          rewrite List.length_app in Hfuel; lia).
    now rewrite Hn'.
  - split; [exact Hrun | rewrite decoded_rows_length; exact Hn'].
Qed.

(** C5, as amended.  A dump whose length is not a multiple of the record
    size is its [n] complete records followed by a non-empty fragment
    shorter than a record, and it is decoded exactly as the [n] records
    alone: the fragment is read as the end of the stream, gives no row and
    no signal.  The count reported is that of the complete records, [n]
    itself whenever [n < 2^31]. *)
Theorem main_drops_fragment (fuel : nat) (fs : filesystem)
  (bytes : list byte) :
  (0 < sizeof_vec)%nat ->
  (List.length bytes mod sizeof_vec <> 0)%nat ->
  fin_file fs = Some bytes -> fout_writable fs = true ->
  (List.length bytes < fuel)%nat ->
  let n := record_count sizeof_vec bytes in
  let whole := firstn (n * sizeof_vec) bytes in
  let frag := skipn (n * sizeof_vec) bytes in
  let shown := to_int32 (to_uint32 (Z.of_nat n)) in
  bytes = (whole ++ frag)%list
  /\ List.length whole = (n * sizeof_vec)%nat
  /\ (0 < List.length frag < sizeof_vec)%nat
  /\ main' fuel fs = main' fuel (with_input fs whole)
  /\ main' fuel fs
     = Some (Returned 0 (header ++ concat_rows (rows' whole)) (count_line shown))
  /\ List.length (rows' whole) = n
  /\ (Z.of_nat n < 2 ^ 31 -> shown = Z.of_nat n).
Proof.
  intros Hpos Hmod Hin Hout Hfuel n whole frag shown.
  assert (Hsplit : bytes = (whole ++ frag)%list)
    by (symmetry; apply firstn_skipn).
  pose proof (Nat.div_mod_eq (List.length bytes) sizeof_vec) as Hdiv.
  pose proof (Nat.mod_upper_bound (List.length bytes) sizeof_vec
                ltac:(lia)) as Hup.
  fold (record_count sizeof_vec bytes) in Hdiv. fold n in Hdiv.
  assert (Hw : List.length whole = (n * sizeof_vec)%nat)
    by (unfold whole; rewrite length_firstn; lia).
  assert (Hf : List.length frag = (List.length bytes mod sizeof_vec)%nat)
    by (unfold frag; rewrite length_skipn; lia).
  rewrite Hsplit in Hin, Hfuel.
  destruct (main_whole_fragment fuel fs whole frag n Hw ltac:(lia)
              Hin Hout Hfuel) as (_ & Hsame & Hrun & Hlen).
  split; [exact Hsplit|].
  split; [exact Hw|].
  split; [lia|].
  split; [exact Hsame|].
  split; [exact Hrun|].
  split; [exact Hlen | apply shown_count_small].
Qed.

(** C6.  On an empty dump the run returns normally, the CSV file holds the
    header row and nothing else, and the count printed is 0. *)
Theorem main_empty_input (fuel : nat) (fs : filesystem) :
  fin_file fs = Some [] -> fout_writable fs = true -> (0 < fuel)%nat ->
  main' fuel fs = Some (Returned 0 header (count_line 0))
  /\ count_char LF header = 1%nat
  /\ count_line 0 = "Decoded 0 telemetry packets" ++ nl.
Proof.
  intros Hin Hout Hfuel.
  split; [|split; reflexivity].
  rewrite (main_decodes code sizeof_vec load_vec fuel fs [] Hin Hout)
    by (cbn; lia).
  rewrite decoded_rows_end
    by (destruct sizeof_vec; [now right | left; cbn; lia]).
  unfold record_count. cbn [List.length]. rewrite Nat.Div0.div_0_l.
  cbn [concat_rows]. now rewrite app_empty_r.
Qed.

(** C7.  The CSV file and the console text of a run depend on the bytes of
    the dump only: two runs on the same dump give the same texts whatever
    the CSV file held before, and so does a second run made after the
    first. *)
Theorem main_deterministic (fuel : nat) (fs1 fs2 : filesystem)
  (bytes : list byte) :
  fin_file fs1 = Some bytes -> fin_file fs2 = Some bytes ->
  fout_writable fs1 = true -> fout_writable fs2 = true ->
  (List.length bytes < fuel)%nat ->
  exists csv console,
    main' fuel fs1 = Some (Returned 0 csv console)
    /\ main' fuel fs2 = Some (Returned 0 csv console)
    /\ main' fuel (after_run fs1 (Returned 0 csv console))
       = Some (Returned 0 csv console).
Proof.
  intros Hin1 Hin2 Hout1 Hout2 Hfuel.
  exists (header ++ concat_rows (rows' bytes)).
  exists (count_line
            (to_int32 (to_uint32 (Z.of_nat (record_count sizeof_vec bytes))))).
  split; [now apply main_decodes|].
  split; [now apply main_decodes|].
  now apply main_decodes.
Qed.

(** C8.  The read loop has no error state.  From [Reading], one step goes
    to [Done] exactly when fewer bytes than a record are left (none, or a
    fragment); otherwise the bytes of the record, whatever they are, give a
    row of 21 fields and the loop stays in [Reading]; it never goes to
    [Fault].  [Done] is terminal, and the loop reaches it. *)
Theorem decoder_two_states :
  (0 < sizeof_vec)%nat ->
  (forall p_fin c out,
      (List.length p_fin < sizeof_vec)%nat ->
      step' (Reading p_fin c out) = Done c out)
  /\ (forall p_fin c out,
        (sizeof_vec <= List.length p_fin)%nat ->
        exists row,
          FormatRow code (load_vec (firstn sizeof_vec p_fin)) = Some row
          /\ List.length (fields_of_row row) = 21%nat
          /\ count_char LF row = 1%nat
          /\ step' (Reading p_fin c out)
             = Reading (skipn sizeof_vec p_fin) (to_uint32 (c + 1))
                 (out ++ row))
  /\ (forall p_fin c out text, step' (Reading p_fin c out) <> Fault text)
  /\ (forall c out, step' (Done c out) = Done c out)
  /\ (forall fuel p_fin c out,
        (List.length p_fin < fuel)%nat ->
        exists c' out', run' fuel (Reading p_fin c out) = Some (Done c' out')).
Proof.
  intros Hpos.
  split; [intros; apply step_end; now left|].
  split.
  { intros p_fin c out Hlen.
    exists (row_text code (load_vec (firstn sizeof_vec p_fin))).
    split; [apply FormatRow_defined|].
    split; [now rewrite fields_of_row_text|].
    split; [apply row_text_lines|].
    apply step_record. lia. }
  split.
  { intros p_fin c out text.
    destruct (Nat.lt_ge_cases (List.length p_fin) sizeof_vec) as [Hlt|Hge].
    - rewrite step_end by now left. discriminate.
    - rewrite step_record by lia. discriminate. }
  split; [reflexivity|].
  intros fuel p_fin c out Hfuel.
  rewrite run_reading by exact Hfuel. eauto.
Qed.

(** C10.  [packet_count] is a 32-bit unsigned counter: when the loop ends
    it holds the number of complete records modulo [2^32], and the line
    printed shows that value read as a signed 32-bit integer. *)
Theorem packet_count_wraps (fuel : nat) (fs : filesystem) (bytes : list byte) :
  fin_file fs = Some bytes -> fout_writable fs = true ->
  (List.length bytes < fuel)%nat ->
  let count := Z.of_nat (record_count sizeof_vec bytes) mod 2 ^ 32 in
  (exists out, run' fuel (Reading bytes 0 header) = Some (Done count out))
  /\ (exists csv,
        main' fuel fs = Some (Returned 0 csv (count_line (to_int32 count))))
  /\ 0 <= count < 2 ^ 32
  /\ (count < 2 ^ 31 -> to_int32 count = count)
  /\ (2 ^ 31 <= count -> to_int32 count = count - 2 ^ 32).
Proof.
  intros Hin Hout Hfuel count.
  assert (Hc : 0 <= count < 2 ^ 32) by (apply Z.mod_pos_bound; lia).
  split.
  { eexists. rewrite run_reading by exact Hfuel.
    rewrite count_after_mod by lia. reflexivity. }
  split; [eexists; now apply main_decodes|].
  split; [exact Hc|].
  split; intros H; unfold to_int32.
  - rewrite Z.mod_small; lia.
  - replace (count + 2 ^ 31) with (count - 2 ^ 31 + 1 * 2 ^ 32) by lia.
    rewrite Z.mod_add by lia. rewrite Z.mod_small; lia.
Qed.

End Claims.

(** C9.  Storing a record in the packed layout of the schema and loading
    the bytes back gives the record again: every field has its original
    value, bit for bit; fed to the read loop, the stored bytes give the row
    of the record. *)
Theorem packed_round_trip (vec : MainStateVector_t) :
  wf_vec vec ->
  List.length (store_packed vec) = packed_sizeof
  /\ load_packed (store_packed vec) = vec
  /\ map float_of_bits (float_fields (load_packed (store_packed vec)))
     = map float_of_bits (float_fields vec)
  /\ (forall code rest c out,
        step code packed_sizeof load_packed
          (Reading (store_packed vec ++ rest) c out)
        = Reading rest (to_uint32 (c + 1)) (out ++ row_text code vec)).
Proof.
  intros Hwf.
  split; [apply store_packed_length|].
  split; [now apply load_store_packed|].
  split; [now rewrite load_store_packed|].
  intros code rest c out. cbn [step].
  rewrite fread_store_packed, load_store_packed by exact Hwf.
  now rewrite FormatRow_defined.
Qed.

(** ** Instances *)

Lemma state_name_total_witness :
  (forall v w, default_code v = default_code w -> v = w)
  /\ state_name default_code 1 = "PWFLIGHT"
  /\ state_name default_code 200 = "UNKNOWN".
Proof.
  split; [exact default_code_inj|].
  destruct (state_name_total default_code default_code_inj)
    as (Hcode & _ & _ & _ & Hother & _).
  split.
  - exact (Hcode PWFLIGHT).
  - apply Hother. intros v. destruct v; discriminate.
Defined.

Lemma FormatRow_nan_not_fixed4 :
  exists row,
    FormatRow default_code nan_vec = Some row
    /\ nth 0 (fields_of_row row) "" = "nan"
    /\ ~ Forall (fun f => is_fixed4 f = true) (float_columns (fields_of_row row)).
Proof.
  eexists. split; [vm_compute; reflexivity|].
  split; [vm_compute; reflexivity|].
  vm_compute. intros H. apply Forall_inv in H. discriminate H.
Qed.



Lemma sample_dump_length : (List.length sample_dump < 200)%nat.
Proof.
  unfold sample_dump. rewrite !List.length_app, !store_packed_length.
  unfold packed_sizeof. cbn [List.length]. lia.
Qed.

Lemma main_header_rows_count_witness :
  fin_file sample_fs = Some sample_dump /\ fout_writable sample_fs = true
  /\ (List.length sample_dump < 200)%nat
  /\ exists rows,
       main default_code packed_sizeof load_packed 200 sample_fs
       = Some (Returned 0 (header ++ concat_rows rows)
                 (count_line
                    (to_int32 (to_uint32
                       (Z.of_nat (record_count packed_sizeof sample_dump))))))
       /\ List.length rows = record_count packed_sizeof sample_dump.
Proof.
  split; [reflexivity|]. split; [reflexivity|].
  split; [exact sample_dump_length|].
  destruct (main_header_rows_count default_code packed_sizeof load_packed 200
              sample_fs sample_dump eq_refl eq_refl sample_dump_length)
    as (rows & Hmain & _ & Hlen & _).
  exists rows. split; [exact Hmain | exact Hlen].
Defined.

Lemma main_count_2_31_records :
  record_count packed_sizeof big_dump = Z.to_nat (2 ^ 31)
  /\ exists o,
       main default_code packed_sizeof load_packed (S (List.length big_dump))
         big_fs = Some o
       /\ ~ reports_count o (Z.of_nat (record_count packed_sizeof big_dump)).
Proof.
  split; [apply big_dump_count|].
  eexists. split.
  - apply main_decodes; [reflexivity | reflexivity | apply Nat.lt_succ_diag_r].
  - rewrite big_dump_count, shown_count_2_31, Z2Nat.id by lia.
    intros (status & csv & E).
    exact (count_line_2_31 (Returned_console _ _ _ _ _ _ E)).
Qed.

Lemma stray_byte_short : (0 < List.length [Byte.x01] < packed_sizeof)%nat.
Proof. unfold packed_sizeof. cbn [List.length]. lia. Qed.

Lemma sample_dump_fragment : (List.length sample_dump mod packed_sizeof <> 0)%nat.
Proof.
  unfold sample_dump. rewrite !List.length_app, !store_packed_length.
  unfold packed_sizeof. cbn. discriminate.
Qed.

Lemma big_fragment_length :
  (List.length (big_dump ++ [Byte.x01]) mod packed_sizeof <> 0)%nat.
Proof.
  rewrite List.length_app, big_dump_length, Nat.add_comm.
  rewrite Nat.Div0.mod_add. unfold packed_sizeof. cbn. discriminate.
Qed.

Lemma main_drops_fragment_witness :
  (0 < packed_sizeof)%nat
  /\ (List.length sample_dump mod packed_sizeof <> 0)%nat
  /\ fin_file sample_fs = Some sample_dump
  /\ fout_writable sample_fs = true
  /\ (List.length sample_dump < 200)%nat
  /\ main default_code packed_sizeof load_packed 200 sample_fs
     = main default_code packed_sizeof load_packed 200
         (with_input sample_fs
            (firstn (record_count packed_sizeof sample_dump * packed_sizeof)
               sample_dump)).
Proof.
  split; [exact packed_sizeof_pos|]. split; [exact sample_dump_fragment|].
  split; [reflexivity|]. split; [reflexivity|].
  split; [exact sample_dump_length|].
  exact (proj1 (proj2 (proj2 (proj2
           (main_drops_fragment default_code packed_sizeof load_packed 200
              sample_fs sample_dump packed_sizeof_pos sample_dump_fragment
              eq_refl eq_refl sample_dump_length))))).
Defined.

Lemma main_fragment_count_2_31 :
  (List.length (big_dump ++ [Byte.x01]) mod packed_sizeof <> 0)%nat
  /\ record_count packed_sizeof (big_dump ++ [Byte.x01]) = Z.to_nat (2 ^ 31)
  /\ exists o,
       main default_code packed_sizeof load_packed
         (S (List.length (big_dump ++ [Byte.x01]))) big_fragment_fs = Some o
       /\ ~ reports_count o
            (Z.of_nat (record_count packed_sizeof (big_dump ++ [Byte.x01]))).
Proof.
  split; [exact big_fragment_length|].
  split; [apply big_fragment_count|].
  eexists. split.
  - apply main_decodes; [reflexivity | reflexivity | apply Nat.lt_succ_diag_r].
  - rewrite big_fragment_count, shown_count_2_31, Z2Nat.id by lia.
    intros (status & csv & E).
    exact (count_line_2_31 (Returned_console _ _ _ _ _ _ E)).
Qed.

Lemma main_empty_input_witness :
  fin_file (with_input missing_fs []) = Some []
  /\ fout_writable (with_input missing_fs []) = true
  /\ (0 < 1)%nat
  /\ main default_code packed_sizeof load_packed 1 (with_input missing_fs [])
     = Some (Returned 0 header (count_line 0)).
Proof.
  split; [reflexivity|]. split; [reflexivity|]. split; [exact Nat.lt_0_1|].
  exact (proj1 (main_empty_input default_code packed_sizeof load_packed 1
                  (with_input missing_fs []) eq_refl eq_refl Nat.lt_0_1)).
Defined.

Lemma main_deterministic_witness :
  fin_file sample_fs = Some sample_dump
  /\ fin_file (with_input missing_fs sample_dump) = Some sample_dump
  /\ fout_writable sample_fs = true
  /\ fout_writable (with_input missing_fs sample_dump) = true
  /\ (List.length sample_dump < 200)%nat
  /\ main default_code packed_sizeof load_packed 200 sample_fs
     = main default_code packed_sizeof load_packed 200
         (with_input missing_fs sample_dump).
Proof.
  split; [reflexivity|]. split; [reflexivity|].
  split; [reflexivity|]. split; [reflexivity|].
  split; [exact sample_dump_length|].
  destruct (main_deterministic default_code packed_sizeof load_packed 200
              sample_fs (with_input missing_fs sample_dump) sample_dump
              eq_refl eq_refl eq_refl eq_refl sample_dump_length)
    as (csv & console & H1 & H2 & _).
  exact (eq_trans H1 (eq_sym H2)).
Defined.

Lemma decoder_two_states_witness :
  (0 < packed_sizeof)%nat
  /\ (forall c out,
        step default_code packed_sizeof load_packed (Reading [Byte.x01] c out)
        = Done c out)
  /\ exists c' out',
       run default_code packed_sizeof load_packed 200
         (Reading sample_dump 0 header) = Some (Done c' out').
Proof.
  split; [exact packed_sizeof_pos|].
  destruct (decoder_two_states default_code packed_sizeof load_packed
              packed_sizeof_pos) as (Hend & _ & _ & _ & Hrun).
  split.
  - intros c out. apply Hend. exact (proj2 stray_byte_short).
  - exact (Hrun 200%nat sample_dump 0 header sample_dump_length).
Defined.

Lemma packed_round_trip_witness :
  wf_vec sample_vec /\ load_packed (store_packed sample_vec) = sample_vec.
Proof.
  split; [exact sample_vec_wf|].
  exact (proj1 (proj2 (packed_round_trip sample_vec sample_vec_wf))).
Defined.

Lemma packet_count_wraps_witness :
  fin_file sample_fs = Some sample_dump /\ fout_writable sample_fs = true
  /\ (List.length sample_dump < 200)%nat
  /\ exists csv,
       main default_code packed_sizeof load_packed 200 sample_fs
       = Some (Returned 0 csv
                 (count_line
                    (to_int32
                       (Z.of_nat (record_count packed_sizeof sample_dump)
                        mod 2 ^ 32)))).
Proof.
  split; [reflexivity|]. split; [reflexivity|].
  split; [exact sample_dump_length|].
  exact (proj1 (proj2 (packet_count_wraps default_code packed_sizeof
                         load_packed 200 sample_fs sample_dump
                         eq_refl eq_refl sample_dump_length))).
Defined.

(** ** Worked examples *)

Example fmt_f4_one : fmt_f4 (float_of_bits 0x3F800000) = "1.0000".
Proof. reflexivity. Qed.

Example fmt_f4_minus_pi : fmt_f4 (float_of_bits 0xC0490FDB) = "-3.1416".
Proof. reflexivity. Qed.

Example fmt_f4_tie_down : fmt_f4 (float_of_bits 0x3D000000) = "0.0312".
Proof. reflexivity. Qed.

Example fmt_f4_tie_up : fmt_f4 (float_of_bits 0x3DC00000) = "0.0938".
Proof. reflexivity. Qed.

Example fmt_f4_max :
  fmt_f4 (float_of_bits 0x7F7FFFFF)
  = "340282346638528859811704183484516925440.0000".
Proof. reflexivity. Qed.

Example fmt_f4_tiny : fmt_f4 (float_of_bits 0x80000001) = "-0.0000".
Proof. reflexivity. Qed.

Example fmt_f4_nan : fmt_f4 (float_of_bits 0x7FC00000) = "nan".
Proof. reflexivity. Qed.

Example fmt_d_minus_one : fmt_d (to_int32 4294967295) = "-1".
Proof. reflexivity. Qed.

Example sample_row :
  FormatRow default_code sample_vec
  = Some ("1.0000,PWFLIGHT,2000.0000,100.0000,-9.8000,101325.0000,20.0000,"
          ++ "1998.0000,-5,0.0000,-0.0000,9.8000,0.0938,0.0312,0.0000,0.0000,"
          ++ "1.0000,0.0000,0.0000,0.0000,"
          ++ "340282346638528859811704183484516925440.0000" ++ nl).
Proof. vm_compute. reflexivity. Qed.

(** The end-to-end case of the specification: a record in powered flight,
    then a record with a state code outside the enumeration, then a stray
    byte. *)
Example sample_run :
  main default_code packed_sizeof load_packed 200 sample_fs
  = Some (Returned 0
            (header
             ++ "1.0000,PWFLIGHT,2000.0000,100.0000,-9.8000,101325.0000,"
             ++ "20.0000,1998.0000,-5,0.0000,-0.0000,9.8000,0.0938,0.0312,"
             ++ "0.0000,0.0000,1.0000,0.0000,0.0000,0.0000,"
             ++ "340282346638528859811704183484516925440.0000" ++ nl
             ++ "nan,UNKNOWN,-inf,0.0000,0.0000,0.0000,0.0000,0.0000,21,"
             ++ "0.0000,0.0000,0.0000,0.0000,0.0000,0.0000,0.0000,0.0000,"
             ++ "0.0000,0.0000,0.0000,0.0000" ++ nl)
            ("Decoded 2 telemetry packets" ++ nl)).
Proof. vm_compute. reflexivity. Qed.

(** * Part IV: further properties of the decoder *)

(** ** The buffer of [sprintf] *)

Section RowBuffer.

Variable code : VehicleState_t -> Z.

(** X1.  The row of every record has at most 895 characters, so the
    [sprintf] call of the loop writes at most 896 of the 1024 characters
    of [record], the terminating NUL included. *)
Theorem FormatRow_fits_record (vec : MainStateVector_t) :
  exists row,
    FormatRow code vec = Some row
    /\ (String.length row <= 895)%nat
    /\ (String.length row + 1 <= record_size)%nat.
Proof.
  exists (row_text code vec). split; [apply FormatRow_defined|].
  assert (H : (String.length (row_text code vec) <= 895)%nat).
  { unfold row_text, row_fields. cbn [String.concat].
    repeat (rewrite length_append; cbn [String.length]).
    change (String.length nl) with 1%nat.
    pose proof (state_name_length code (to_uint8 (state vec))).
    pose proof (fmt_d_length _ (to_int32_range (imu_temp vec))).
    pose proof (fmt_f4_length (time vec)).
    pose proof (fmt_f4_length (altitude vec)).
    pose proof (fmt_f4_length (velocity vec)).
    pose proof (fmt_f4_length (acceleration vec)).
    pose proof (fmt_f4_length (pressure vec)).
    pose proof (fmt_f4_length (temperature vec)).
    pose proof (fmt_f4_length (baro_altitude vec)).
    pose proof (fmt_f4_length (accel_x vec)).
    pose proof (fmt_f4_length (accel_y vec)).
    pose proof (fmt_f4_length (accel_z vec)).
    pose proof (fmt_f4_length (accel_vertical vec)).
    pose proof (fmt_f4_length (gyro_x vec)).
    pose proof (fmt_f4_length (gyro_y vec)).
    pose proof (fmt_f4_length (gyro_z vec)).
    pose proof (fmt_f4_length (quat_w vec)).
    pose proof (fmt_f4_length (quat_x vec)).
    pose proof (fmt_f4_length (quat_y vec)).
    pose proof (fmt_f4_length (quat_z vec)).
    pose proof (fmt_f4_length (launchpad_altitude vec)).
    lia. }
  split; [exact H|]. unfold record_size. lia.
Qed.

End RowBuffer.

(** The bound is reached. *)
Example longest_row :
  option_map String.length (FormatRow default_code longest_vec) = Some 895%nat.
Proof. vm_compute. reflexivity. Qed.

(** ** What [%.4f] keeps of a value *)

Lemma digits_value_frac4 n :
  0 <= n < 10000 -> digits_value 0 (frac4 n) = n.
Proof.
  intros Hn. unfold frac4. cbn [digits_value].
  rewrite !digit_value_digit_char by apply mod10_range.
  Z.div_mod_to_equations. lia.
Qed.

Lemma unsigned_scaled_intro ip fp :
  all_chars is_digit ip = true -> all_chars is_digit fp = true ->
  unsigned_scaled (ip ++ String "." fp)
  = digits_value 0 ip * 10000 + digits_value 0 fp.
Proof.
  intros Hip Hfp. unfold unsigned_scaled.
  rewrite split_on_app by now apply digits_no_point.
  now rewrite split_on_absent by now apply digits_no_point.
Qed.

Lemma read_fixed4_finite neg m e :
  0 <= scaled4 m e ->
  read_fixed4 (fmt_f4 (FFinite neg m e))
  = if neg then - scaled4 m e else scaled4 m e.
Proof.
  intros Hq. unfold fmt_f4. cbv zeta.
  set (q := scaled4 m e) in *.
  assert (Hu : unsigned_scaled (fmt_u (q / 10000)
                                ++ String "." (frac4 (q mod 10000))) = q).
  { rewrite unsigned_scaled_intro by (apply fmt_u_digits || apply frac4_digits).
    rewrite fmt_u_value by (apply Z.div_pos; lia).
    rewrite digits_value_frac4 by (apply Z.mod_pos_bound; lia).
    pose proof (Z.div_mod q 10000 ltac:(lia)). lia. }
  destruct neg; cbn [sign_text append read_fixed4].
  - rewrite Ascii.eqb_refl. now rewrite Hu.
  - destruct (fmt_u_head (q / 10000)) as (c & s & E & Hc).
    rewrite E in *. cbn [append read_fixed4].
    rewrite (digit_not_minus _ Hc). exact Hu.
Qed.

Lemma round_half_even_error num den :
  0 < den -> Z.abs (2 * (round_half_even num den * den - num)) <= den.
Proof.
  intros Hden. unfold round_half_even.
  pose proof (Z.div_mod num den ltac:(lia)) as Hdm.
  pose proof (Z.mod_pos_bound num den Hden) as Hr.
  generalize dependent (num / den). intros q Hdm.
  generalize dependent (num mod den). intros r Hdm Hr.
  destruct (Z.ltb_spec (2 * r) den); [nia|].
  destruct (Z.ltb_spec den (2 * r)); [nia|].
  destruct (Z.even q); nia.
Qed.

(** X2.  A finite [float] field is printed with an error of at most half a
    unit of the fourth decimal: the text read back, in units of [10^-4],
    is the nearest integer to the value [m * 2^e] times [10^4] (exactly
    that number when the value is an integer), with the sign of the field. *)
Theorem fmt_f4_accuracy (b : Z) (neg : bool) (m e : Z) :
  float_of_bits b = FFinite neg m e ->
  let q := read_fixed4 (fmt_f4 (float_of_bits b)) in
  (if neg then q <= 0 else 0 <= q)
  /\ (0 <= e -> Z.abs q = m * 2 ^ e * 10000)
  /\ (e < 0 -> Z.abs (2 * (Z.abs q * 2 ^ (- e) - m * 10000)) <= 2 ^ (- e)).
Proof.
  intros E q. subst q. rewrite E.
  destruct (float_of_bits_range _ _ _ _ E) as [Hm He].
  destruct (scaled4_bounds m e Hm He) as [Hq _].
  rewrite (read_fixed4_finite neg m e Hq).
  assert (Habs : Z.abs (if neg then - scaled4 m e else scaled4 m e)
                 = scaled4 m e) by (destruct neg; lia).
  rewrite Habs.
  split; [destruct neg; lia|].
  unfold scaled4. split; intros Hsign.
  - destruct (Z.leb_spec 0 e); [reflexivity | lia].
  - destruct (Z.leb_spec 0 e); [lia|].
    apply round_half_even_error. apply Z.pow_pos_nonneg; lia.
Qed.

Lemma fmt_f4_accuracy_witness :
  float_of_bits 0xC11CCCCD = FFinite true 10276045 (-20)
  /\ read_fixed4 (fmt_f4 (float_of_bits 0xC11CCCCD)) = -98000
  /\ Z.abs (2 * (Z.abs (read_fixed4 (fmt_f4 (float_of_bits 0xC11CCCCD)))
                 * 2 ^ 20 - 10276045 * 10000)) <= 2 ^ 20.
Proof.
  split; [reflexivity|]. split; [reflexivity|].
  exact (proj2 (proj2 (fmt_f4_accuracy 0xC11CCCCD true 10276045 (-20) eq_refl))
           ltac:(reflexivity)).
Defined.

(** ** The sign *)



(** ** The lines of the CSV file *)

Lemma split_on_rows c (bodies : list string) :
  Forall (fun body => count_char c body = O) bodies ->
  split_on c (concat_rows (map (fun body => body ++ String c "") bodies))
  = (bodies ++ [""])%list.
Proof.
  induction 1 as [|body bodies Hb _ IH]; [reflexivity|].
  cbn [map concat_rows List.app].
  rewrite app_assoc_str. cbn [append].
  now rewrite split_on_app, IH by exact Hb.
Qed.

Lemma header_line : header = chop_last header ++ nl.
Proof. reflexivity. Qed.

Section Lines.

Variable code : VehicleState_t -> Z.
Variable sizeof_vec : nat.
Variable load_vec : list byte -> MainStateVector_t.

Local Abbreviation run' := (run code sizeof_vec load_vec).
Local Abbreviation main' := (main code sizeof_vec load_vec).
Local Abbreviation rows' := (decoded_rows code sizeof_vec load_vec).

(** More fuel does not change the result of the loop. *)
Lemma run_more_fuel fuel : forall d r fuel',
  run' fuel d = Some r -> (fuel <= fuel')%nat -> run' fuel' d = Some r.
Proof.
  induction fuel as [|fuel IH]; intros d r fuel' Hrun Hle.
  - destruct d; try discriminate Hrun; destruct fuel'; exact Hrun.
  - destruct d as [p c out|c out|out]; [|destruct fuel'; exact Hrun
                                        |destruct fuel'; exact Hrun].
    destruct fuel' as [|fuel']; [lia|].
    cbn [run] in *. apply (IH _ _ _ Hrun). lia.
Qed.

Lemma main_more_fuel fuel fuel' fs o :
  main' fuel fs = Some o -> (fuel <= fuel')%nat -> main' fuel' fs = Some o.
Proof.
  unfold main. intros Hmain Hle.
  destruct (fout_writable fs); [|exact Hmain].
  destruct (fin_file fs) as [bytes|]; [|exact Hmain].
  destruct (run' fuel (Reading bytes 0 ("" ++ header))) as [r|] eqn:Hrun;
    [|discriminate Hmain].
  now rewrite (run_more_fuel _ _ _ _ Hrun Hle).
Qed.

(** A run that returns has opened both files, and the CSV file holds the
    header and the rows of the complete records. *)
Lemma main_csv fuel fs status csv console :
  main' fuel fs = Some (Returned status csv console) ->
  exists bytes,
    fin_file fs = Some bytes /\ fout_writable fs = true
    /\ csv = header ++ concat_rows (rows' bytes).
Proof.
  intros Hmain.
  destruct (fout_writable fs) eqn:Hout;
    [|unfold main in Hmain; rewrite Hout in Hmain; discriminate Hmain].
  destruct (fin_file fs) as [bytes|] eqn:Hin;
    [|unfold main in Hmain; rewrite Hin, Hout in Hmain; discriminate Hmain].
  exists bytes. split; [reflexivity|]. split; [reflexivity|].
  apply (main_more_fuel _ (fuel + S (List.length bytes))) in Hmain; [|lia].
  rewrite (main_decodes code sizeof_vec load_vec _ fs bytes Hin Hout)
    in Hmain by lia.
  now injection Hmain as _ <- _.
Qed.

Lemma rows_bodies bytes :
  exists bodies,
    rows' bytes = map (fun body => body ++ nl) bodies
    /\ List.length bodies = record_count sizeof_vec bytes
    /\ Forall (fun body => count_char LF body = O
                           /\ List.length (split_on "," body) = 21%nat) bodies.
Proof.
  exists (map (fun r => String.concat "," (row_fields code (load_vec r)))
            (complete_records sizeof_vec bytes)).
  split; [unfold decoded_rows; now rewrite map_map|].
  split; [rewrite length_map, <- (decoded_rows_length code sizeof_vec load_vec);
          unfold decoded_rows; now rewrite length_map|].
  apply Forall_map, Forall_forall. intros r _. split.
  - rewrite count_concat.
    + reflexivity.
    + eapply Forall_impl; [|apply row_fields_field].
      intros f Hf. now apply field_char_count.
  - now rewrite split_on_concat
      by (discriminate || apply row_fields_no_comma).
Qed.

(** X4.  Whenever the run returns, the CSV file is a well-formed table,
    whatever the dump holds: it consists of whole lines, each ended by a
    line feed; the first is the header line; every line, the header
    included, has exactly 21 comma-separated fields; and there is one line
    per complete record after the header. *)
Theorem csv_well_formed (fuel : nat) (fs : filesystem) (status : Z)
  (csv console : string) :
  main' fuel fs = Some (Returned status csv console) ->
  exists bytes body_lines,
    fin_file fs = Some bytes
    /\ lines_of csv = chop_last header :: body_lines
    /\ csv = concat_rows (map (fun l => l ++ nl) (lines_of csv))
    /\ Forall (fun l => List.length (split_on "," l) = 21%nat) (lines_of csv)
    /\ List.length body_lines = record_count sizeof_vec bytes.
Proof.
  intros Hmain.
  destruct (main_csv fuel fs status csv console Hmain)
    as (bytes & Hin & _ & ->).
  destruct (rows_bodies bytes) as (bodies & -> & Hlen & Hall).
  exists bytes, bodies.
  assert (Hlines : lines_of (header ++ concat_rows
                      (map (fun body => body ++ nl) bodies))
                   = chop_last header :: bodies).
  { unfold lines_of. rewrite header_line at 1.
    unfold nl at 1. rewrite app_assoc_str. cbn [append].
    rewrite split_on_app by reflexivity.
    unfold nl. rewrite split_on_rows
      by (eapply Forall_impl; [|exact Hall]; now intros ? []).
    change (chop_last header :: (bodies ++ [""])%list)
      with ((chop_last header :: bodies) ++ [""])%list.
    apply removelast_last. }
  rewrite Hlines.
  split; [exact Hin|].
  split; [reflexivity|].
  split; [cbn [map concat_rows]; now rewrite <- header_line|].
  split; [|exact Hlen].
  apply Forall_cons; [reflexivity|].
  eapply Forall_impl; [|exact Hall]. now intros ? [].
Qed.

End Lines.

Lemma csv_well_formed_witness :
  main default_code packed_sizeof load_packed 200 sample_fs
  = Some (Returned 0
            (header ++ concat_rows
               (decoded_rows default_code packed_sizeof load_packed
                  sample_dump))
            (count_line 2))
  /\ Forall (fun l => List.length (split_on "," l) = 21%nat)
       (lines_of
          (header ++ concat_rows
             (decoded_rows default_code packed_sizeof load_packed
                sample_dump))).
Proof.
  assert (Hmain : main default_code packed_sizeof load_packed 200 sample_fs
     = Some (Returned 0
               (header ++ concat_rows
                  (decoded_rows default_code packed_sizeof load_packed
                     sample_dump))
               (count_line 2))) by (vm_compute; reflexivity).
  split; [exact Hmain|].
  destruct (csv_well_formed default_code packed_sizeof load_packed 200
              sample_fs _ _ _ Hmain) as (bytes & body_lines & _ & _ & _ & Hall & _).
  exact Hall.
Defined.

(** ** Dumps put end to end, and the course of the loop *)

Section Compose.

Variable code : VehicleState_t -> Z.
Variable sizeof_vec : nat.
Variable load_vec : list byte -> MainStateVector_t.

Local Abbreviation step' := (step code sizeof_vec load_vec).
Local Abbreviation main' := (main code sizeof_vec load_vec).
Local Abbreviation rows' := (decoded_rows code sizeof_vec load_vec).

Hypothesis sizeof_pos : (0 < sizeof_vec)%nat.

Lemma chunks_concat k : forall (a b : list byte) m,
  List.length a = (k * sizeof_vec)%nat ->
  chunks sizeof_vec (k + m) (a ++ b)
  = (chunks sizeof_vec k a ++ chunks sizeof_vec m b)%list.
Proof.
  induction k as [|k IH]; intros a b m Hlen.
  - destruct a; [reflexivity | discriminate Hlen].
  - cbn [Nat.add chunks List.app].
    rewrite firstn_app, skipn_app.
    replace (sizeof_vec - List.length a)%nat with O by lia.
    cbn [firstn skipn]. rewrite app_nil_r. f_equal.
    apply IH. rewrite length_skipn. lia.
Qed.

Lemma record_count_concat (a b : list byte) k :
  List.length a = (k * sizeof_vec)%nat ->
  record_count sizeof_vec (a ++ b) = (k + record_count sizeof_vec b)%nat.
Proof.
  intros Hlen. unfold record_count.
  rewrite List.length_app, Hlen. apply Nat.div_add_l. lia.
Qed.

Lemma rows_concat (a b : list byte) k :
  List.length a = (k * sizeof_vec)%nat ->
  rows' (a ++ b) = (rows' a ++ rows' b)%list.
Proof.
  intros Hlen. unfold decoded_rows, complete_records.
  rewrite (record_count_concat a b k Hlen).
  rewrite (record_count_whole sizeof_vec a k Hlen sizeof_pos).
  now rewrite (chunks_concat k a b _ Hlen), map_app.
Qed.

(** X5.  Decoding composes: for a dump [a] of [k] whole records followed by
    any dump [b], the CSV file of [a ++ b] is the CSV file of [a] followed
    by the rows of [b] (the CSV file of [b] without its header), and the
    count printed is that of [k] plus the number of complete records of
    [b]. *)
Theorem main_concat (fuel : nat) (fs : filesystem) (a b : list byte)
  (k : nat) :
  List.length a = (k * sizeof_vec)%nat ->
  fout_writable fs = true ->
  (List.length (a ++ b) < fuel)%nat ->
  exists csv_a csv_b line_a line_b,
    main' fuel (with_input fs a) = Some (Returned 0 csv_a line_a)
    /\ main' fuel (with_input fs b) = Some (Returned 0 (header ++ csv_b) line_b)
    /\ main' fuel (with_input fs (a ++ b))
       = Some (Returned 0 (csv_a ++ csv_b)
                 (count_line
                    (to_int32 (to_uint32
                       (Z.of_nat (k + record_count sizeof_vec b))))))
    /\ line_a = count_line (to_int32 (to_uint32 (Z.of_nat k)))
    /\ line_b = count_line
                  (to_int32 (to_uint32 (Z.of_nat (record_count sizeof_vec b)))).
Proof.
  intros Hlen Hout Hfuel. rewrite List.length_app in Hfuel.
  exists (header ++ concat_rows (rows' a)), (concat_rows (rows' b)).
  eexists. eexists.
  split.
  { rewrite (main_decodes code sizeof_vec load_vec fuel (with_input fs a) a eq_refl Hout)
      by lia. reflexivity. }
  split.
  { rewrite (main_decodes code sizeof_vec load_vec fuel (with_input fs b) b eq_refl Hout)
      by lia. reflexivity. }
  split.
  { rewrite (main_decodes code sizeof_vec load_vec fuel (with_input fs (a ++ b)) (a ++ b) eq_refl Hout)
      by (rewrite List.length_app; lia).
    rewrite (rows_concat a b k Hlen), concat_rows_app, app_assoc_str.
    now rewrite (record_count_concat a b k Hlen). }
  rewrite (record_count_whole sizeof_vec a k Hlen sizeof_pos).
  split; reflexivity.
Qed.

Lemma iter_step_done k c out : Nat.iter k step' (Done c out) = Done c out.
Proof.
  induction k as [|k IH]; [reflexivity|]. rewrite Nat.iter_succ. now rewrite IH.
Qed.

Lemma record_count_pos (bytes : list byte) :
  (0 < record_count sizeof_vec bytes)%nat ->
  (sizeof_vec <= List.length bytes)%nat.
Proof.
  intros H. destruct (Nat.lt_ge_cases (List.length bytes) sizeof_vec) as [Hlt|Hge];
    [|exact Hge].
  rewrite (record_count_short _ _ Hlt) in H. lia.
Qed.

Lemma iter_step_reading k : forall (bytes : list byte) c out,
  (k <= record_count sizeof_vec bytes)%nat ->
  Nat.iter k step' (Reading bytes c out)
  = Reading (skipn (k * sizeof_vec) bytes) (count_after c k)
      (out ++ concat_rows (rows' (firstn (k * sizeof_vec) bytes))).
Proof.
  induction k as [|k IH]; intros bytes c out Hk.
  - unfold Nat.iter. cbn [nat_rect Nat.mul skipn firstn count_after].
    rewrite decoded_rows_end by (left; cbn [List.length]; exact sizeof_pos).
    cbn [concat_rows]. now rewrite app_empty_r.
  - pose proof (record_count_pos bytes ltac:(lia)) as Hlen.
    rewrite Nat.iter_succ_r, step_record by lia.
    rewrite (record_count_full sizeof_vec bytes) in Hk by lia.
    rewrite IH by lia.
    cbn [Nat.mul count_after]. rewrite skipn_skipn.
    replace (k * sizeof_vec + sizeof_vec)%nat
      with (sizeof_vec + k * sizeof_vec)%nat by lia.
    rewrite (decoded_rows_record code sizeof_vec load_vec
               (firstn (sizeof_vec + k * sizeof_vec) bytes))
      by (rewrite length_firstn; lia).
    rewrite firstn_firstn, <- firstn_skipn_comm.
    replace (Nat.min sizeof_vec (sizeof_vec + k * sizeof_vec)) with sizeof_vec
      by lia.
    cbn [concat_rows]. now rewrite app_assoc_str.
Qed.

(** X6.  The course of the loop on a dump of [n] complete records.  After
    [k <= n] evaluations of the loop condition the loop is still reading:
    exactly the first [k] records are consumed and written, the stream
    stands at byte [k * sizeof(vec)], and [packet_count] is [k] modulo
    [2^32].  The evaluation number [n + 1] ends the loop, and nothing
    changes afterwards. *)
Theorem loop_course (bytes : list byte) :
  let n := record_count sizeof_vec bytes in
  (forall k, (k <= n)%nat ->
     Nat.iter k step' (Reading bytes 0 header)
     = Reading (skipn (k * sizeof_vec) bytes) (Z.of_nat k mod 2 ^ 32)
         (header ++ concat_rows (rows' (firstn (k * sizeof_vec) bytes))))
  /\ (forall k, (n < k)%nat ->
        Nat.iter k step' (Reading bytes 0 header)
        = Done (Z.of_nat n mod 2 ^ 32) (header ++ concat_rows (rows' bytes))).
Proof.
  intros n.
  assert (Hread : forall k, (k <= n)%nat ->
     Nat.iter k step' (Reading bytes 0 header)
     = Reading (skipn (k * sizeof_vec) bytes) (Z.of_nat k mod 2 ^ 32)
         (header ++ concat_rows (rows' (firstn (k * sizeof_vec) bytes)))).
  { intros k Hk. rewrite iter_step_reading by exact Hk.
    now rewrite count_after_mod by lia. }
  split; [exact Hread|].
  intros k Hk.
  replace k with ((k - S n) + S n)%nat by lia.
  rewrite Nat.iter_add, Nat.iter_succ, Hread by lia.
  pose proof (Nat.div_mod_eq (List.length bytes) sizeof_vec) as Hdiv.
  pose proof (Nat.mod_upper_bound (List.length bytes) sizeof_vec
                ltac:(lia)) as Hup.
  fold (record_count sizeof_vec bytes) in Hdiv. fold n in Hdiv.
  rewrite step_end by (left; rewrite length_skipn; lia).
  rewrite iter_step_done.
  rewrite <- (rows_app code sizeof_vec load_vec
                (firstn (n * sizeof_vec) bytes)
                (skipn (n * sizeof_vec) bytes) n)
    by (rewrite ?length_firstn, ?length_skipn; lia).
  now rewrite firstn_skipn.
Qed.

(** X7.  A dump that grows only gains lines: whatever bytes are appended
    to a dump, complete records or not, the CSV file of the longer dump
    starts with the CSV file of the shorter one, and it has at least as
    many records. *)
Theorem main_grows (fuel : nat) (fs : filesystem) (bytes more : list byte) :
  fout_writable fs = true ->
  (List.length (bytes ++ more) < fuel)%nat ->
  exists csv line csv_more line_more,
    main' fuel (with_input fs bytes) = Some (Returned 0 csv line)
    /\ main' fuel (with_input fs (bytes ++ more))
       = Some (Returned 0 (csv ++ csv_more) line_more)
    /\ (record_count sizeof_vec bytes
        <= record_count sizeof_vec (bytes ++ more))%nat.
Proof.
  intros Hout Hfuel. rewrite List.length_app in Hfuel.
  set (n := record_count sizeof_vec bytes).
  set (whole := firstn (n * sizeof_vec) bytes).
  set (frag := skipn (n * sizeof_vec) bytes).
  pose proof (Nat.div_mod_eq (List.length bytes) sizeof_vec) as Hdiv.
  pose proof (Nat.mod_upper_bound (List.length bytes) sizeof_vec
                ltac:(lia)) as Hup.
  fold (record_count sizeof_vec bytes) in Hdiv. fold n in Hdiv.
  assert (Hw : List.length whole = (n * sizeof_vec)%nat)
    by (unfold whole; rewrite length_firstn; lia).
  assert (Hf : (List.length frag < sizeof_vec)%nat)
    by (unfold frag; rewrite length_skipn; lia).
  assert (Hsplit : bytes = (whole ++ frag)%list)
    by (symmetry; apply firstn_skipn).
  exists (header ++ concat_rows (rows' bytes)).
  eexists. exists (concat_rows (rows' (frag ++ more))). eexists.
  split.
  { now rewrite (main_decodes code sizeof_vec load_vec fuel
                   (with_input fs bytes) bytes eq_refl Hout) by lia. }
  assert (Hrows : rows' (bytes ++ more)
                  = (rows' bytes ++ rows' (frag ++ more))%list).
  { rewrite Hsplit at 1 2. rewrite <- List.app_assoc.
    rewrite (rows_concat whole (frag ++ more) n Hw).
    now rewrite (rows_app code sizeof_vec load_vec whole frag n Hw Hf). }
  split.
  { rewrite (main_decodes code sizeof_vec load_vec fuel
               (with_input fs (bytes ++ more)) (bytes ++ more) eq_refl Hout)
      by (rewrite List.length_app; lia).
    now rewrite Hrows, concat_rows_app, app_assoc_str. }
  pose proof (decoded_rows_length code sizeof_vec load_vec bytes) as H1.
  pose proof (decoded_rows_length code sizeof_vec load_vec (bytes ++ more))
    as H2.
  rewrite Hrows, List.length_app in H2. fold n in H1. lia.
Qed.

End Compose.

Lemma main_concat_witness :
  List.length (store_packed sample_vec) = (1 * packed_sizeof)%nat
  /\ fout_writable sample_fs = true
  /\ (List.length (store_packed sample_vec ++ store_packed nan_vec) < 200)%nat
  /\ exists csv_a csv_b line_a line_b,
       main default_code packed_sizeof load_packed 200
         (with_input sample_fs (store_packed sample_vec))
       = Some (Returned 0 csv_a line_a)
       /\ main default_code packed_sizeof load_packed 200
            (with_input sample_fs (store_packed nan_vec))
          = Some (Returned 0 (header ++ csv_b) line_b)
       /\ main default_code packed_sizeof load_packed 200
            (with_input sample_fs (store_packed sample_vec ++ store_packed nan_vec))
          = Some (Returned 0 (csv_a ++ csv_b)
                    (count_line
                       (to_int32 (to_uint32
                          (Z.of_nat
                             (1 + record_count packed_sizeof
                                    (store_packed nan_vec)))))))
       /\ line_a = count_line (to_int32 (to_uint32 (Z.of_nat 1)))
       /\ line_b = count_line
                     (to_int32 (to_uint32
                        (Z.of_nat (record_count packed_sizeof
                                     (store_packed nan_vec))))).
Proof.
  assert (Hlen : List.length (store_packed sample_vec)
                 = (1 * packed_sizeof)%nat)
    by (rewrite store_packed_length; lia).
  assert (Hfuel : (List.length (store_packed sample_vec ++ store_packed nan_vec)
                   < 200)%nat)
    by (rewrite List.length_app, !store_packed_length; unfold packed_sizeof; lia).
  split; [exact Hlen|]. split; [reflexivity|]. split; [exact Hfuel|].
  exact (main_concat default_code packed_sizeof load_packed packed_sizeof_pos
           200 sample_fs _ _ 1 Hlen eq_refl Hfuel).
Defined.

Lemma loop_course_witness :
  (0 < packed_sizeof)%nat
  /\ Nat.iter 3 (step default_code packed_sizeof load_packed)
       (Reading sample_dump 0 header)
     = Done (Z.of_nat (record_count packed_sizeof sample_dump) mod 2 ^ 32)
         (header ++ concat_rows
            (decoded_rows default_code packed_sizeof load_packed sample_dump)).
Proof.
  split; [exact packed_sizeof_pos|].
  apply (proj2 (loop_course default_code packed_sizeof load_packed
                  packed_sizeof_pos sample_dump)).
  vm_compute. lia.
Defined.

Lemma main_grows_witness :
  fout_writable sample_fs = true
  /\ (List.length (sample_dump ++ store_packed sample_vec) < 400)%nat
  /\ exists csv line csv_more line_more,
       main default_code packed_sizeof load_packed 400
         (with_input sample_fs sample_dump)
       = Some (Returned 0 csv line)
       /\ main default_code packed_sizeof load_packed 400
            (with_input sample_fs (sample_dump ++ store_packed sample_vec))
          = Some (Returned 0 (csv ++ csv_more) line_more)
       /\ (record_count packed_sizeof sample_dump
           <= record_count packed_sizeof
                (sample_dump ++ store_packed sample_vec))%nat.
Proof.
  assert (Hfuel : (List.length (sample_dump ++ store_packed sample_vec)
                   < 400)%nat).
  { rewrite List.length_app, store_packed_length.
    pose proof sample_dump_length. unfold packed_sizeof. lia. }
  split; [reflexivity|]. split; [exact Hfuel|].
  exact (main_grows default_code packed_sizeof load_packed packed_sizeof_pos
           400 sample_fs _ _ eq_refl Hfuel).
Defined.
